(** * Whale: the dashboard controller of [src/index.js]

    A shallow embedding of the [Whale] class: the fields it keeps on
    [this], the blessed widgets it drives, the Node process around it
    (interval timers, data-source requests, exit status), and one
    transition per event the class subscribes to.  Every method is a
    function on the application state, written statement by statement
    after the source. *)

From Stdlib Require Import String Bool Arith NArith Lia.
From stdpp Require Import base list.

Open Scope string_scope.
Open Scope list_scope.

(** ** Data model *)

Definition Market := string.
Definition Period := string.
(** [new Date()]: milliseconds since the epoch. *)
Definition Timestamp := N.
(** Handle returned by [setInterval]. *)
Definition Handle := nat.

(** Colours and other style options only decorate widgets and are left
    out; the fields below are the ones control flow reads. *)
Record Config := {
  tableHeaders : bool;
  showLegend : bool;
  priceInterval : N;   (* seconds *)
  trendInterval : N
}.

Module Exchange.
Record t := {
  name : string;
  periods : list Period;
  defaultPeriod : option Period   (* [None]: the property is undefined *)
}.
End Exchange.

Module PriceEntry.
Record t := {
  name : Market;
  price : string;
  change : string
}.
End PriceEntry.

Module Trend.
Record t := {
  currentMarket : Market;
  labels : list string;
  closePricesList : list string
}.
End Trend.

(** [this.data]: [{}] until a fetch fills a property in. *)
Record Data := {
  currentPrice : option (list PriceEntry.t);
  priceTrend : option Trend.t
}.

(** Errors a data-source promise rejects with.  [errorHandler] looks at
    [err.response], [err.response.request] and [err.status]. *)
Inductive Request := ClientRequest.

Record Response := {
  request : option Request
}.

Record Err := {
  status : option nat;
  response : option Response
}.

(** A [TypeError] raised by the controller's own code: no [response]. *)
Definition typeError : Err := {| status := None; response := None |}.

(** Outcome of a promise. *)
Inductive Settled (A : Type) :=
| Resolved (a : A)
| Rejected (e : Err).
Arguments Resolved {A} a.
Arguments Rejected {A} e.

(** [Promise.all] over two promises: both values, or the rejection that
    came first. *)
Definition promise_all {A B} (secondFirst : bool)
    (a : Settled A) (b : Settled B) : Settled (A * B) :=
  match a, b with
  | Resolved x, Resolved y => Resolved (x, y)
  | Rejected e, Resolved _ => Rejected e
  | Resolved _, Rejected e => Rejected e
  | Rejected e1, Rejected e2 => Rejected (if secondFirst then e2 else e1)
  end.

(** ** Widgets *)

(** Text put into a box with [setContent]; the strings are built from
    these parts with the formatting helpers of [libs/utils]. *)
Inductive Content :=
| NoContent
| HelpText (ps : list Period)
| FetchingInitial
| FetchingPrices
| FetchingTrend (m : option Market) (p : option Period)
| HttpError (st : option nat).

Inductive TableLabel :=
| TableNoData
| TableUpdated (at_ : option Timestamp).

Inductive LineLabel :=
| LineNoData (m : option Market)
| LineTrend (m : Market) (p : option Period).

(** What [table.setData] receives: the header switch and the entries
    handed to [wash.currentPrice]. *)
Record TableData := {
  headers : bool;
  entries : option (list PriceEntry.t)
}.

Record TableWidget := {
  table_data : option TableData;
  table_label : TableLabel
}.

Record LineWidget := {
  line_data : option Trend.t;
  line_label : LineLabel
}.

Record Box := {
  hidden : bool;
  content : Content
}.

(** The five widgets [initDashBoard] creates and assigns to
    [this.table], [this.line], [this.log], [this.error], [this.help].
    No other code assigns these fields, so they always belong to one
    call of [initDashBoard]. *)
Record Dashboard := {
  table : TableWidget;
  line : LineWidget;
  log : Box;
  error : Box;
  help : Box
}.

(** ** The instance and its surroundings *)

(** [this.timers = { price, trend }]. *)
Record Timers := {
  price_timer : Handle;
  trend_timer : Handle
}.

(** The fields of [this] other than the widgets. *)
Record Whale := {
  config : Config;
  exchange : Exchange.t;
  markets : list Market;
  currentMarket : option Market;   (* [markets[0]] is undefined on [[]] *)
  currentPeriod : option Period;
  data : Data;
  lastUpdate : option Timestamp;
  running : bool;
  timers : option Timers;
  timer : option Handle            (* [this.timer]: read by the quit key *)
}.

(** The one callback ever handed to [errorHandler]: [this.init.bind(this)]. *)
Inductive Callback := InitCb.

Inductive TimerFn := UpdateCurrentPrice | UpdatePriceTrend.

Record Interval := {
  handle : Handle;
  fn : TimerFn;
  delay : N            (* milliseconds *)
}.

Inductive ApiCall :=
| GetCurrentPrice (ex : Exchange.t) (ms : list Market)
| GetPriceTrend (ex : Exchange.t) (m : option Market) (p : option Period).

Inductive Termination :=
| ProcessExit (code : nat)
| UncaughtTypeError.

(** A focused element: the table or the error box of the dashboard built
    by the [gen]-th rebuild ([0]: the one built by the constructor). *)
Inductive Focus :=
| FocusTable (gen : nat)
| FocusError (gen : nat).

(** The blessed screen and the Node process. *)
Record World := {
  orphans : list Dashboard;            (* widgets of earlier dashboards: still
                                          on the screen, oldest first *)
  focused : option Focus;
  frames : nat;                        (* calls of [screen.render()] *)
  enterOnce : list (option Callback);  (* listeners of [onceKey(['enter'])] *)
  helpKey : option nat;                (* dashboard whose help box [?] shows *)
  requests : list ApiCall;             (* data-source calls issued so far *)
  intervals : list Interval;           (* live [setInterval] timers *)
  nextHandle : Handle;
  exited : option Termination
}.

Record App := {
  this : Whale;
  dash : Dashboard;                    (* the widget fields of [this] *)
  world : World
}.

(** ** Field updates *)

Definition set_currentMarket (v : option Market) (w : Whale) : Whale :=
  {| config := config w; exchange := exchange w; markets := markets w;
     currentMarket := v; currentPeriod := currentPeriod w; data := data w;
     lastUpdate := lastUpdate w; running := running w; timers := timers w;
     timer := timer w |}.

Definition set_currentPeriod (v : option Period) (w : Whale) : Whale :=
  {| config := config w; exchange := exchange w; markets := markets w;
     currentMarket := currentMarket w; currentPeriod := v; data := data w;
     lastUpdate := lastUpdate w; running := running w; timers := timers w;
     timer := timer w |}.

Definition set_data (v : Data) (w : Whale) : Whale :=
  {| config := config w; exchange := exchange w; markets := markets w;
     currentMarket := currentMarket w; currentPeriod := currentPeriod w;
     data := v; lastUpdate := lastUpdate w; running := running w;
     timers := timers w; timer := timer w |}.

Definition set_lastUpdate (v : option Timestamp) (w : Whale) : Whale :=
  {| config := config w; exchange := exchange w; markets := markets w;
     currentMarket := currentMarket w; currentPeriod := currentPeriod w;
     data := data w; lastUpdate := v; running := running w;
     timers := timers w; timer := timer w |}.

Definition set_running (v : bool) (w : Whale) : Whale :=
  {| config := config w; exchange := exchange w; markets := markets w;
     currentMarket := currentMarket w; currentPeriod := currentPeriod w;
     data := data w; lastUpdate := lastUpdate w; running := v;
     timers := timers w; timer := timer w |}.

Definition set_timers (v : option Timers) (w : Whale) : Whale :=
  {| config := config w; exchange := exchange w; markets := markets w;
     currentMarket := currentMarket w; currentPeriod := currentPeriod w;
     data := data w; lastUpdate := lastUpdate w; running := running w;
     timers := v; timer := timer w |}.

Definition set_table (v : TableWidget) (d : Dashboard) : Dashboard :=
  {| table := v; line := line d; log := log d; error := error d;
     help := help d |}.

Definition set_line (v : LineWidget) (d : Dashboard) : Dashboard :=
  {| table := table d; line := v; log := log d; error := error d;
     help := help d |}.

Definition set_log (v : Box) (d : Dashboard) : Dashboard :=
  {| table := table d; line := line d; log := v; error := error d;
     help := help d |}.

Definition set_error (v : Box) (d : Dashboard) : Dashboard :=
  {| table := table d; line := line d; log := log d; error := v;
     help := help d |}.

Definition set_help (v : Box) (d : Dashboard) : Dashboard :=
  {| table := table d; line := line d; log := log d; error := error d;
     help := v |}.

Definition set_orphans (v : list Dashboard) (e : World) : World :=
  {| orphans := v; focused := focused e; frames := frames e;
     enterOnce := enterOnce e; helpKey := helpKey e;
     requests := requests e;
     intervals := intervals e; nextHandle := nextHandle e;
     exited := exited e |}.

Definition set_focused (v : option Focus) (e : World) : World :=
  {| orphans := orphans e; focused := v; frames := frames e;
     enterOnce := enterOnce e; helpKey := helpKey e;
     requests := requests e;
     intervals := intervals e; nextHandle := nextHandle e;
     exited := exited e |}.

Definition set_frames (v : nat) (e : World) : World :=
  {| orphans := orphans e; focused := focused e; frames := v;
     enterOnce := enterOnce e; helpKey := helpKey e;
     requests := requests e;
     intervals := intervals e; nextHandle := nextHandle e;
     exited := exited e |}.

Definition set_enterOnce (v : list (option Callback)) (e : World) : World :=
  {| orphans := orphans e; focused := focused e; frames := frames e;
     enterOnce := v; helpKey := helpKey e; requests := requests e;
     intervals := intervals e; nextHandle := nextHandle e;
     exited := exited e |}.

Definition set_helpKey (v : option nat) (e : World) : World :=
  {| orphans := orphans e; focused := focused e; frames := frames e;
     enterOnce := enterOnce e; helpKey := v; requests := requests e;
     intervals := intervals e; nextHandle := nextHandle e;
     exited := exited e |}.

Definition set_requests (v : list ApiCall) (e : World) : World :=
  {| orphans := orphans e; focused := focused e; frames := frames e;
     enterOnce := enterOnce e; helpKey := helpKey e; requests := v;
     intervals := intervals e; nextHandle := nextHandle e;
     exited := exited e |}.

Definition set_intervals (v : list Interval) (n : Handle) (e : World) : World :=
  {| orphans := orphans e; focused := focused e; frames := frames e;
     enterOnce := enterOnce e; helpKey := helpKey e;
     requests := requests e;
     intervals := v; nextHandle := n; exited := exited e |}.

Definition set_exited (v : option Termination) (e : World) : World :=
  {| orphans := orphans e; focused := focused e; frames := frames e;
     enterOnce := enterOnce e; helpKey := helpKey e;
     requests := requests e;
     intervals := intervals e; nextHandle := nextHandle e; exited := v |}.

(** ** Statements as state transformers *)

Definition Action := App -> App.

Definition on_this (f : Whale -> Whale) : Action :=
  fun a => {| this := f (this a); dash := dash a; world := world a |}.

Definition on_dash (f : Dashboard -> Dashboard) : Action :=
  fun a => {| this := this a; dash := f (dash a); world := world a |}.

Definition on_world (f : World -> World) : Action :=
  fun a => {| this := this a; dash := dash a; world := f (world a) |}.

Definition andThen (f g : Action) : Action := fun a => g (f a).
Notation "f >> g" := (andThen f g) (at level 61, left associativity).

Definition skip : Action := fun a => a.

(** *** blessed: elements *)

Definition show (b : Box) : Box := {| hidden := false; content := content b |}.
Definition hide (b : Box) : Box := {| hidden := true; content := content b |}.
Definition setContent (c : Content) (b : Box) : Box :=
  {| hidden := hidden b; content := c |}.

(** [el.visible] of an element attached to the screen. *)
Definition visible (b : Box) : bool := negb (hidden b).

(** [blessed.box({...})]. *)
Definition new_box : Box := {| hidden := false; content := NoContent |}.

Definition on_table (f : TableWidget -> TableWidget) : Action :=
  on_dash (fun d => set_table (f (table d)) d).
Definition on_line (f : LineWidget -> LineWidget) : Action :=
  on_dash (fun d => set_line (f (line d)) d).
Definition on_log (f : Box -> Box) : Action :=
  on_dash (fun d => set_log (f (log d)) d).
Definition on_error (f : Box -> Box) : Action :=
  on_dash (fun d => set_error (f (error d)) d).
Definition on_help (f : Box -> Box) : Action :=
  on_dash (fun d => set_help (f (help d)) d).

Definition setData_table (d : TableData) (t : TableWidget) : TableWidget :=
  {| table_data := Some d; table_label := table_label t |}.
Definition setLabel_table (l : TableLabel) (t : TableWidget) : TableWidget :=
  {| table_data := table_data t; table_label := l |}.
Definition setData_line (d : Trend.t) (t : LineWidget) : LineWidget :=
  {| line_data := Some d; line_label := line_label t |}.
Definition setLabel_line (l : LineLabel) (t : LineWidget) : LineWidget :=
  {| line_data := line_data t; line_label := l |}.

(** How many times [initDashBoard] ran before the current dashboard was
    built. *)
Definition generation (a : App) : nat := length (orphans (world a)).

Definition focus_table : Action :=
  fun a => on_world (set_focused (Some (FocusTable (generation a)))) a.
Definition focus_error : Action :=
  fun a => on_world (set_focused (Some (FocusError (generation a)))) a.

(** [screen.render()]. *)
Definition render : Action :=
  on_world (fun e => set_frames (S (frames e)) e).

(** [screen.onceKey(['enter'], ...)]: the listener of [logError], which
    differs from call to call only in the callback it closes over. *)
Definition onceKey_enter (cb : option Callback) : Action :=
  on_world (fun e => set_enterOnce (enterOnce e ++ [cb]) e).

(** *** Node: timers, process, data source *)

Definition setInterval (f : TimerFn) (ms : N) (k : Handle -> Action) : Action :=
  fun a =>
    let h := nextHandle (world a) in
    k h (on_world (fun e =>
      set_intervals (intervals e ++ [{| handle := h; fn := f; delay := ms |}])
                    (S h) e) a).

Definition clearInterval (h : Handle) : Action :=
  on_world (fun e =>
    set_intervals (filter (fun i => handle i <> h) (intervals e))
                  (nextHandle e) e).

Definition process_exit (code : nat) : Action :=
  on_world (set_exited (Some (ProcessExit code))).

(** An exception nobody catches ends the process. *)
Definition uncaught : Action :=
  on_world (set_exited (Some UncaughtTypeError)).

(** A call of [libs/api]; its promise settles in a later event. *)
Definition api (c : ApiCall) : Action :=
  on_world (fun e => set_requests (requests e ++ [c]) e).

(** ** The methods of [Whale] *)

(** A statement that may throw: the state reached, and whether control
    left through a [TypeError]. *)
Inductive Completion :=
| Normal (a : App)
| Throws (a : App).

(** JavaScript truthiness of a string. *)
Definition truthy (p : Period) : bool := negb (String.eqb p "").

(** [a || b] on possibly undefined strings. *)
Definition or_else (a b : option Period) : option Period :=
  match a with
  | Some p => if truthy p then Some p else b
  | None => b
  end.

Definition set_currentPrice_of (res : list PriceEntry.t) (w : Whale) : Whale :=
  set_data {| currentPrice := Some res; priceTrend := priceTrend (data w) |} w.

Definition set_priceTrend_of (d : Trend.t) (w : Whale) : Whale :=
  set_data {| currentPrice := currentPrice (data w); priceTrend := Some d |} w.

(** The two style assignments at the top of [logMsg] are left out. *)
Definition logMsg (msg : Content) : Action :=
  on_log show >>
  on_log (setContent msg) >>
  render.

(** [this.log.logLines = []] sets a property a plain box never reads. *)
Definition hideLog : Action :=
  on_log hide >> render.

Definition logError (msg : Content) (cb : option Callback) : Action :=
  on_error show >>
  on_error (setContent msg) >>
  focus_error >>
  onceKey_enter cb >>
  render.

Definition toggleHelp : Action :=
  fun a =>
    ((if visible (help (dash a)) then on_help hide else on_help show) >>
     render) a.

(** [err.response && err.response.request]. *)
Definition isHttpError (err : Err) : bool :=
  match response err with
  | Some r => match request r with Some _ => true | None => false end
  | None => false
  end.

(** [cb] is [None] when the argument is not a function; the
    [console.error] before [process.exit(1)] is left out. *)
Definition errorHandler (err : Err) (cb : option Callback) : Action :=
  if isHttpError err
  then logError (HttpError (status err)) cb
  else process_exit 1.

Definition drawHelp : Action :=
  fun a =>
    on_help (setContent (HelpText (Exchange.periods (exchange (this a))))) a.

Definition updateTable : Action :=
  fun a =>
    if negb (running (this a)) then a else
    (on_table (setData_table {| headers := tableHeaders (config (this a));
                                entries := currentPrice (data (this a)) |}) >>
     on_table (setLabel_table (TableUpdated (lastUpdate (this a)))) >>
     focus_table >>
     render) a.

(** [data.currentMarket] throws when [this.data.priceTrend] is undefined. *)
Definition updateLine (a : App) : Completion :=
  if negb (running (this a)) then Normal a else
  match priceTrend (data (this a)) with
  | None => Throws a
  | Some d =>
      Normal
        ((on_line (setData_line d) >>
          on_line (setLabel_line (LineTrend (Trend.currentMarket d)
                                            (currentPeriod (this a)))) >>
          render) a)
  end.

Definition updateCurrentPrice : Action :=
  fun a =>
    if negb (running (this a)) then a else
    (logMsg FetchingPrices >>
     api (GetCurrentPrice (exchange (this a)) (markets (this a)))) a.

Definition updatePriceTrend : Action :=
  fun a =>
    if negb (running (this a)) then a else
    (logMsg (FetchingTrend (currentMarket (this a)) (currentPeriod (this a))) >>
     api (GetPriceTrend (exchange (this a)) (currentMarket (this a))
                        (currentPeriod (this a)))) a.

Definition fetchAll : Action :=
  fun a =>
    (api (GetCurrentPrice (exchange (this a)) (markets (this a))) >>
     api (GetPriceTrend (exchange (this a)) (currentMarket (this a))
                        (currentPeriod (this a)))) a.

(** What the promise of [fetchAll] settles with. *)
Definition fetchAll_settled (secondFirst : bool)
    (p : Settled (list PriceEntry.t)) (t : Settled Trend.t) : Settled Data :=
  match promise_all secondFirst p t with
  | Resolved (res0, res1) =>
      Resolved {| currentPrice := Some res0; priceTrend := Some res1 |}
  | Rejected e => Rejected e
  end.

Definition init : Action :=
  logMsg FetchingInitial >> fetchAll.

Definition call (cb : option Callback) : Action :=
  match cb with
  | Some InitCb => init
  | None => skip
  end.

(** The two continuations of [init]. *)
Definition init_settled (r : Settled Data) (now : Timestamp) : Action :=
  fun a =>
    match r with
    | Resolved d =>
        let a1 :=
          (on_this (set_running true) >>
           on_this (set_data d) >>
           on_this (set_lastUpdate (Some now)) >>
           hideLog >>
           updateTable) a in
        match updateLine a1 with
        | Normal a2 => a2
        | Throws a2 => (hideLog >> errorHandler typeError (Some InitCb)) a2
        end
    | Rejected err => (hideLog >> errorHandler err (Some InitCb)) a
    end.

(** The two continuations of [updateCurrentPrice]. *)
Definition price_settled (r : Settled (list PriceEntry.t)) (now : Timestamp)
    : Action :=
  match r with
  | Resolved res =>
      on_this (set_currentPrice_of res) >>
      on_this (set_lastUpdate (Some now)) >>
      updateTable >>
      hideLog
  | Rejected err => errorHandler err None
  end.

(** The two continuations of [updatePriceTrend]. *)
Definition trend_settled (r : Settled Trend.t) : Action :=
  fun a =>
    match r with
    | Resolved d =>
        match updateLine (on_this (set_priceTrend_of d) a) with
        | Normal a1 => hideLog a1
        | Throws a1 => errorHandler typeError None a1
        end
    | Rejected err => errorHandler err None a
    end.

(** The listener of [this.table.rows.on('select', ...)]. *)
Definition on_select (idx : nat) : Action :=
  fun a =>
    if negb (running (this a)) then a else
    match currentPrice (data (this a)) ≫= (fun es => es !! idx) with
    | Some e =>
        (on_this (set_currentMarket (Some (PriceEntry.name e))) >>
         updatePriceTrend) a
    | None => uncaught a
    end.

(** The widgets [initDashBoard] makes: a table and a chart labelled
    "(No Data)", and the log, error and help boxes, each hidden before
    it is appended to the screen. *)
Definition new_dashboard (w : Whale) : Dashboard :=
  {| table := {| table_data := None; table_label := TableNoData |};
     line := {| line_data := None;
                line_label := LineNoData (currentMarket w) |};
     log := hide new_box;
     error := hide new_box;
     help := hide new_box |}.

(** [initDashBoard], given the widgets [this] referred to before the
    call ([None] in the constructor).  They stay on the screen; the
    fields of [this] move on to the new ones. *)
Definition initDashBoard_from (prev : option Dashboard) (w : Whale) (e : World)
    : Completion :=
  let e1 := match prev with
            | Some d => set_orphans (orphans e ++ [d]) e
            | None => e
            end in
  let a1 :=
    (drawHelp >> updateTable)
      {| this := w; dash := new_dashboard w; world := e1 |} in
  match updateLine a1 with
  | Normal a2 => Normal (render a2)
  | Throws a2 => Throws a2
  end.

Definition initDashBoard (a : App) : Completion :=
  initDashBoard_from (Some (dash a)) (this a) (world a).

(** The keys bound to periods:
    [Array(periods.length).fill(1).map((v, idx) => idx+1)]. *)
Definition periodKeys (ps : list Period) : list nat :=
  imap (fun idx _ => idx + 1) (replicate (length ps) 1).

(** [this.help.show.bind(this.help)] keeps the help box of the dashboard
    current at this point. *)
Definition eventListeners : Action :=
  fun a =>
    (setInterval UpdateCurrentPrice (priceInterval (config (this a)) * 1000)%N
       (fun hp =>
          setInterval UpdatePriceTrend (trendInterval (config (this a)) * 1000)%N
            (fun ht =>
               on_this (set_timers (Some {| price_timer := hp;
                                            trend_timer := ht |})))) >>
     on_world (set_helpKey (Some (generation a)))) a.

(** The listener of keys [escape], [q] and [C-c]. *)
Definition on_quit : Action :=
  fun a =>
    if visible (help (dash a)) then toggleHelp a else
    ((match timer (this a) with
      | Some h => clearInterval h
      | None => skip
      end) >>
     process_exit 0) a.

(** The listener of the period keys; [ch] is the digit pressed. *)
Definition on_period (ch : nat) : Action :=
  fun a =>
    (on_this (set_currentPeriod (Exchange.periods (exchange (this a)) !! (ch - 1))) >>
     updatePriceTrend) a.

(** [show] on the help box of dashboard [g]. *)
Definition show_help_of (g : nat) : Action :=
  fun a =>
    if Nat.eqb g (generation a) then on_help show a else
    on_world (fun e =>
      set_orphans (alter (fun d => set_help (show (help d)) d) g (orphans e)) e) a.

(** The listener of [?]. *)
Definition on_help_key : Action :=
  fun a =>
    match helpKey (world a) with
    | Some g => show_help_of g a
    | None => a
    end.

(** One listener registered by [logError]. *)
Definition acknowledge (cb : option Callback) : Action :=
  on_error hide >>
  focus_table >>
  render >>
  call cb.

(** The listeners of [logError] are registered with [onceKey], that is
    with [once] of blessed's own emitter: the wrapper it registers takes
    itself out of the listener array and then calls the listener.  The
    emitter walks that same array by index while it emits
    ([for (i = 0; i < handler.length; i++)]): [i] is the index reached,
    and the listener that slides into the slot of a removed one is passed
    over.  [fuel] bounds the walk; the length of the array is enough. *)
Fixpoint emit_enter (fuel i : nat) (a : App) : App :=
  match fuel with
  | 0 => a
  | S fuel' =>
      match enterOnce (world a) !! i with
      | None => a
      | Some cb =>
          emit_enter fuel' (S i)
            (acknowledge cb
               (on_world (fun e => set_enterOnce (delete i (enterOnce e)) e) a))
      end
  end.

(** The [enter] key. *)
Definition on_enter : Action :=
  fun a => emit_enter (length (enterOnce (world a))) 0 a.

Definition timerFn (f : TimerFn) : Action :=
  match f with
  | UpdateCurrentPrice => updateCurrentPrice
  | UpdatePriceTrend => updatePriceTrend
  end.

(** An interval fires if it has not been cleared. *)
Definition on_tick (h : Handle) : Action :=
  fun a =>
    match find (fun i => Nat.eqb (handle i) h) (intervals (world a)) with
    | Some i => timerFn (fn i) a
    | None => a
    end.

(** A throw outside any promise is not caught. *)
Definition unhandled (c : Completion) : App :=
  match c with
  | Normal a => a
  | Throws a => uncaught a
  end.

(** [initScreen] only makes the screen and the grid the widgets are put
    on; the rest of the constructor is below. *)
Definition constructor (cfg : Config) (ex : Exchange.t) (ms : list Market) : App :=
  let w0 :=
    {| config := cfg; exchange := ex; markets := ms;
       currentMarket := ms !! 0;
       currentPeriod :=
         or_else (Exchange.defaultPeriod ex) (Exchange.periods ex !! 0);
       data := {| currentPrice := None; priceTrend := None |};
       lastUpdate := None;
       running := false;
       timers := None; timer := None |} in
  let e0 :=
    {| orphans := []; focused := None; frames := 0; enterOnce := [];
       helpKey := None; requests := []; intervals := [];
       nextHandle := 0; exited := None |} in
  match initDashBoard_from None w0 e0 with
  | Normal a1 => (eventListeners >> init) a1
  | Throws a1 => uncaught a1
  end.

(** ** Events *)

(** Everything that can happen to a constructed instance: a key, a row
    selection, a timer, a resize, or a pending promise settling.  A
    settled promise carries the clock its continuation reads. *)
Inductive Event :=
| KeyQuit
| KeyHelp
| KeyEnter
| KeyPeriod (ch : nat)
| RowSelect (idx : nat)
| Tick (h : Handle)
| Resize
| InitSettled (secondFirst : bool) (p : Settled (list PriceEntry.t))
              (t : Settled Trend.t) (now : Timestamp)
| PriceSettled (r : Settled (list PriceEntry.t)) (now : Timestamp)
| TrendSettled (r : Settled Trend.t).

(** [screen.key(periodKeys, ...)] listens to the keys of [periodKeys]
    only. *)
Definition period_bound (ch : nat) (a : App) : bool :=
  existsb (Nat.eqb ch) (periodKeys (Exchange.periods (exchange (this a)))).

(** Modelled from the spec: [utils.throttle] of [libs/utils], which is
    not among the sources.  A resize leads to one rebuild of the
    dashboard from the existing state, without a fetch; so the function
    [throttle] returns is taken to run its argument once when called. *)
Definition throttle (f : App -> Completion) (ms : N) : App -> Completion := f.

(** The listener of [resize]; [Resize] is the moment the throttled call
    runs. *)
Definition on_resize : Action :=
  fun a => unhandled (throttle initDashBoard 360 a).

Definition handle_event (ev : Event) : Action :=
  match ev with
  | KeyQuit => on_quit
  | KeyHelp => on_help_key
  | KeyEnter => on_enter
  | KeyPeriod ch => fun a => if period_bound ch a then on_period ch a else a
  | RowSelect idx => on_select idx
  | Tick h => on_tick h
  | Resize => on_resize
  | InitSettled sf p t now => init_settled (fetchAll_settled sf p t) now
  | PriceSettled r now => price_settled r now
  | TrendSettled r => trend_settled r
  end.

(** Nothing runs once the process is gone. *)
Definition step (a : App) (ev : Event) : App :=
  match exited (world a) with
  | Some _ => a
  | None => handle_event ev a
  end.

Definition run (a : App) (evs : list Event) : App := fold_left step evs a.

Definition reachable (cfg : Config) (ex : Exchange.t) (ms : list Market)
    (a : App) : Prop :=
  exists evs, a = run (constructor cfg ex ms) evs.

(** ** Derived notions *)

Definition state_of (c : Completion) : App :=
  match c with
  | Normal a => a
  | Throws a => a
  end.

(** The fields of [this] after an event, as a function of the state
    before it. *)
Definition this_after (ev : Event) (a : App) : Whale :=
  match ev with
  | KeyPeriod ch =>
      if period_bound ch a
      then set_currentPeriod
             (Exchange.periods (exchange (this a)) !! (ch - 1)) (this a)
      else this a
  | RowSelect idx =>
      if running (this a) then
        match currentPrice (data (this a)) ≫= (fun es => es !! idx) with
        | Some e => set_currentMarket (Some (PriceEntry.name e)) (this a)
        | None => this a
        end
      else this a
  | InitSettled _ (Resolved res0) (Resolved res1) now =>
      set_lastUpdate (Some now)
        (set_data {| currentPrice := Some res0; priceTrend := Some res1 |}
           (set_running true (this a)))
  | PriceSettled (Resolved res) now =>
      set_lastUpdate (Some now) (set_currentPrice_of res (this a))
  | TrendSettled (Resolved d) => set_priceTrend_of d (this a)
  | _ => this a
  end.

(** [calm a b]: going from [a] to [b] touched neither the error box nor
    the listeners waiting for the [enter] key. *)
Definition calm (a b : App) : Prop :=
  error (dash b) = error (dash a) /\
  enterOnce (world b) = enterOnce (world a).

(** The requests a callback issues. *)
Definition requests_of (cb : option Callback) (w : Whale) : list ApiCall :=
  match cb with
  | Some InitCb =>
      [GetCurrentPrice (exchange w) (markets w);
       GetPriceTrend (exchange w) (currentMarket w) (currentPeriod w)]
  | None => []
  end.

(** The listeners one [enter] key serves: the first, and every second
    one after it ... *)
Fixpoint served {A} (l : list A) : list A :=
  match l with
  | x :: _ :: rest => x :: served rest
  | _ => l
  end.

(** ... and the ones it passes over, which stay registered. *)
Fixpoint skipped {A} (l : list A) : list A :=
  match l with
  | _ :: y :: rest => y :: skipped rest
  | _ => []
  end.

Record inv (a : App) : Prop := {
  inv_timer : timer (this a) = None;
  inv_ack : visible (error (dash a)) = true -> enterOnce (world a) <> []
}.

(** The error a settling promise rejects with, if it rejects. *)
Definition failure_of (ev : Event) : option Err :=
  match ev with
  | InitSettled sf p t _ =>
      match fetchAll_settled sf p t with
      | Rejected e => Some e
      | Resolved _ => None
      end
  | PriceSettled (Rejected e) _ => Some e
  | TrendSettled (Rejected e) => Some e
  | _ => None
  end.

(** The same, read off the requests themselves: the first of the two
    cold-start requests to fail ([secondFirst]: the trend request
    settled before the price request), a failed price request, a failed
    trend request. *)
Definition rejection_of (ev : Event) : option Err :=
  match ev with
  | InitSettled secondFirst (Rejected e1) (Rejected e2) _ =>
      Some (if secondFirst then e2 else e1)
  | InitSettled _ (Rejected e1) (Resolved _) _ => Some e1
  | InitSettled _ (Resolved _) (Rejected e2) _ => Some e2
  | PriceSettled (Rejected e) _ => Some e
  | TrendSettled (Rejected e) => Some e
  | _ => None
  end.

(** The status the process ends with: the argument of [process.exit],
    and 1 when Node ends it over an uncaught exception. *)
Definition exit_status (t : Termination) : nat :=
  match t with
  | ProcessExit code => code
  | UncaughtTypeError => 1
  end.

(** Every entry carries the name of a market of the list. *)
Definition named_after (ms : list Market) (es : list PriceEntry.t) : Prop :=
  Forall (fun e => In (PriceEntry.name e) ms) es.

(** The data source answers with entries named after the markets asked
    for. *)
Definition api_faithful (ms : list Market) (ev : Event) : Prop :=
  match ev with
  | InitSettled _ (Resolved res0) (Resolved _) _ => named_after ms res0
  | PriceSettled (Resolved res) _ => named_after ms res
  | _ => True
  end.

Record selection_ok (ex : Exchange.t) (ms : list Market) (a : App) : Prop := {
  sel_exchange : exchange (this a) = ex;
  sel_market : exists m, currentMarket (this a) = Some m /\ In m ms;
  sel_period :
    exists p, currentPeriod (this a) = Some p /\ In p (Exchange.periods ex);
  sel_prices :
    forall es, currentPrice (data (this a)) = Some es -> named_after ms es
}.

(** The two timers [eventListeners] starts. *)
Definition interval_list (cfg : Config) : list Interval :=
  [ {| handle := 0; fn := UpdateCurrentPrice;
       delay := (priceInterval cfg * 1000)%N |};
    {| handle := 1; fn := UpdatePriceTrend;
       delay := (trendInterval cfg * 1000)%N |} ].

(** Table and chart show what [this] holds. *)
Definition drawn (a : App) : Prop :=
  table (dash a)
  = {| table_data :=
         Some {| headers := tableHeaders (config (this a));
                 entries := currentPrice (data (this a)) |};
       table_label := TableUpdated (lastUpdate (this a)) |} /\
  line_data (line (dash a)) = priceTrend (data (this a)) /\
  (forall d, line_data (line (dash a)) = Some d ->
             exists p, line_label (line (dash a))
                       = LineTrend (Trend.currentMarket d) p).

(** Both halves of [this.data] are there. *)
Definition has_data (a : App) : Prop :=
  exists es d, currentPrice (data (this a)) = Some es /\
               priceTrend (data (this a)) = Some d.

(** [b] differs from [a] in nothing that table, chart, help text or
    timers depend on. *)
Record same_view (a b : App) : Prop := {
  sv_config : config (this b) = config (this a);
  sv_exchange : exchange (this b) = exchange (this a);
  sv_markets : markets (this b) = markets (this a);
  sv_timers : timers (this b) = timers (this a);
  sv_timer : timer (this b) = timer (this a);
  sv_running : running (this b) = running (this a);
  sv_data : data (this b) = data (this a);
  sv_lastUpdate : lastUpdate (this b) = lastUpdate (this a);
  sv_table : table (dash b) = table (dash a);
  sv_line : line (dash b) = line (dash a);
  sv_help : content (help (dash b)) = content (help (dash a));
  sv_intervals : intervals (world b) = intervals (world a);
  sv_helpKey : helpKey (world b) = helpKey (world a)
}.

Record shape (cfg : Config) (ex : Exchange.t) (ms : list Market) (a : App)
    : Prop := {
  shape_config : config (this a) = cfg;
  shape_exchange : exchange (this a) = ex;
  shape_markets : markets (this a) = ms;
  shape_timers :
    timers (this a) = Some {| price_timer := 0; trend_timer := 1 |};
  shape_timer : timer (this a) = None;
  shape_intervals : intervals (world a) = interval_list cfg;
  shape_helpKey : helpKey (world a) = Some 0;
  shape_help : content (help (dash a)) = HelpText (Exchange.periods ex);
  shape_data : running (this a) = true -> has_data a;
  shape_drawn : running (this a) = true -> drawn a
}.

(** ** Sample inputs *)

Definition cfg0 : Config :=
  {| tableHeaders := true; showLegend := false;
     priceInterval := 10%N; trendInterval := 60%N |}.

Definition ex0 : Exchange.t :=
  {| Exchange.name := "bx"; Exchange.periods := ["1h"; "1d"];
     Exchange.defaultPeriod := None |}.

Definition mk0 : list Market := ["BTC"; "ETH"].

Definition prices0 : list PriceEntry.t :=
  [ {| PriceEntry.name := "BTC"; PriceEntry.price := "100";
       PriceEntry.change := "+1" |};
    {| PriceEntry.name := "ETH"; PriceEntry.price := "10";
       PriceEntry.change := "-1" |} ].

Definition btc_1h : Trend.t :=
  {| Trend.currentMarket := "BTC"; Trend.labels := ["10:00"; "11:00"];
     Trend.closePricesList := ["99"; "100"] |}.

Definition btc_late : Trend.t :=
  {| Trend.currentMarket := "BTC"; Trend.labels := ["11:00"; "12:00"];
     Trend.closePricesList := ["100"; "101"] |}.

Definition http500 : Err :=
  {| status := Some 500;
     response := Some {| request := Some ClientRequest |} |}.

(** The cold-start fetch resolving with both results. *)
Definition cold_ok : Event :=
  InitSettled false (Resolved prices0) (Resolved btc_1h) 1000%N.

(** The cold start has succeeded. *)
Definition started : App := run (constructor cfg0 ex0 mk0) [cold_ok].

Definition ex_default : Exchange.t :=
  {| Exchange.name := "bx"; Exchange.periods := ["1h"; "1d"];
     Exchange.defaultPeriod := Some "1d" |}.

(** The user picked ETH while a BTC trend was on its way. *)
Definition switched : App :=
  run (constructor cfg0 ex0 mk0) [cold_ok; Tick 1; RowSelect 1].

(** The help box is open on a running dashboard. *)
Definition helped : App := run (constructor cfg0 ex0 mk0) [cold_ok; KeyHelp].

(** A failure below HTTP: the connection was refused, no response. *)
Definition refused : Err := {| status := None; response := None |}.

(** An error with a response that does not carry its request. *)
Definition bare_response : Err :=
  {| status := Some 500; response := Some {| request := None |} |}.

(** A running dashboard whose trend fetch failed with an HTTP error. *)
Definition failed : App :=
  run (constructor cfg0 ex0 mk0)
      [cold_ok; Tick 1; TrendSettled (Rejected http500)].



(** A default period that is not among the periods. *)
Definition ex_odd : Exchange.t :=
  {| Exchange.name := "bx"; Exchange.periods := ["1h"; "1d"];
     Exchange.defaultPeriod := Some "5m" |}.

(** An exchange without periods. *)
Definition ex_bare : Exchange.t :=
  {| Exchange.name := "bx"; Exchange.periods := [];
     Exchange.defaultPeriod := None |}.

(** Price entries named after trading pairs. *)
Definition prices_pairs : list PriceEntry.t :=
  [ {| PriceEntry.name := "BTC_USD"; PriceEntry.price := "100";
       PriceEntry.change := "+1" |};
    {| PriceEntry.name := "ETH_USD"; PriceEntry.price := "10";
       PriceEntry.change := "-1" |} ].

(** The late BTC series has arrived after the switch to ETH. *)
Definition overwritten : App :=
  run (constructor cfg0 ex0 mk0)
      [cold_ok; Tick 1; RowSelect 1; TrendSettled (Resolved btc_late)].

(** A trend fetch is on its way. *)
Definition fetching : App := run (constructor cfg0 ex0 mk0) [cold_ok; Tick 1].

(** The terminal was resized once. *)
Definition resized : App := run (constructor cfg0 ex0 mk0) [cold_ok; Resize].

(** A running dashboard with two failed fetches not yet acknowledged. *)
Definition failed_twice : App :=
  run (constructor cfg0 ex0 mk0)
      [cold_ok; Tick 1; TrendSettled (Rejected http500);
       Tick 0; PriceSettled (Rejected http500) 2000%N].

(** * Properties *)

(** ** What each method does to the fields of [this] *)

Lemma this_logMsg msg a : this (logMsg msg a) = this a.
Proof. reflexivity. Qed.

Lemma this_hideLog a : this (hideLog a) = this a.
Proof. reflexivity. Qed.

Lemma this_logError msg cb a : this (logError msg cb a) = this a.
Proof. reflexivity. Qed.

Lemma this_toggleHelp a : this (toggleHelp a) = this a.
Proof. unfold toggleHelp. destruct (visible _); reflexivity. Qed.

Lemma this_errorHandler err cb a : this (errorHandler err cb a) = this a.
Proof. unfold errorHandler. destruct (isHttpError err); reflexivity. Qed.

Lemma this_updateTable a : this (updateTable a) = this a.
Proof. unfold updateTable. destruct (running (this a)); reflexivity. Qed.

Lemma this_updateLine a : this (state_of (updateLine a)) = this a.
Proof.
  unfold updateLine.
  destruct (running (this a)); cbn; [destruct (priceTrend _)|]; reflexivity.
Qed.

Lemma this_updateCurrentPrice a : this (updateCurrentPrice a) = this a.
Proof. unfold updateCurrentPrice. destruct (running (this a)); reflexivity. Qed.

Lemma this_updatePriceTrend a : this (updatePriceTrend a) = this a.
Proof. unfold updatePriceTrend. destruct (running (this a)); reflexivity. Qed.

Lemma this_init a : this (init a) = this a.
Proof. reflexivity. Qed.

Lemma this_call cb a : this (call cb a) = this a.
Proof. destruct cb as [[]|]; reflexivity. Qed.

Lemma this_acknowledge cb a : this (acknowledge cb a) = this a.
Proof. unfold acknowledge, andThen. rewrite this_call. reflexivity. Qed.

(** Induction over the listeners the [enter] key runs. *)
Lemma acknowledge_all_ind (P : App -> Prop) :
  (forall cb b, P b -> P (acknowledge cb b)) ->
  forall cbs b, P b -> P (fold_left (fun acc cb => acknowledge cb acc) cbs b).
Proof.
  intros Hstep cbs. induction cbs as [|cb cbs IH]; intros b Hb; cbn;
    [assumption|]. apply IH, Hstep, Hb.
Qed.

Lemma acknowledge_set_enterOnce cb l a :
  acknowledge cb (on_world (set_enterOnce l) a)
  = on_world (set_enterOnce l) (acknowledge cb a).
Proof. destruct cb as [[]|]; reflexivity. Qed.

Lemma acknowledge_all_set_enterOnce cbs l a :
  fold_left (fun acc cb => acknowledge cb acc) cbs (on_world (set_enterOnce l) a)
  = on_world (set_enterOnce l)
      (fold_left (fun acc cb => acknowledge cb acc) cbs a).
Proof.
  revert a. induction cbs as [|cb cbs IH]; intros a; cbn [fold_left];
    [reflexivity|].
  rewrite acknowledge_set_enterOnce. apply IH.
Qed.

Lemma set_enterOnce_same a l :
  enterOnce (world a) = l -> on_world (set_enterOnce l) a = a.
Proof. destruct a as [t d []]. cbn. intros <-. reflexivity. Qed.

(** The walk from index [length pre]: the listeners of [pre] have been
    passed over, those of [post] are still ahead. *)
Lemma emit_enter_eq fuel : forall pre post a,
  enterOnce (world a) = pre ++ post ->
  length post <= fuel ->
  emit_enter fuel (length pre) a
  = on_world (set_enterOnce (pre ++ skipped post))
      (fold_left (fun acc cb => acknowledge cb acc) (served post) a).
Proof.
  induction fuel as [|fuel IH]; intros pre post a E Hlen.
  - destruct post; [|cbn in Hlen; lia].
    cbn. symmetry. apply set_enterOnce_same. exact E.
  - cbn [emit_enter]. rewrite E.
    destruct post as [|x [|y post]].
    + rewrite lookup_ge_None_2 by (rewrite app_nil_r; lia).
      cbn. symmetry. apply set_enterOnce_same. exact E.
    + rewrite list_lookup_middle by reflexivity.
      change (on_world _ a)
        with (on_world (set_enterOnce (delete (length pre) (enterOnce (world a)))) a).
      rewrite E, delete_middle, app_nil_r.
      replace (emit_enter fuel (S (length pre)) _)
        with (acknowledge x (on_world (set_enterOnce pre) a)).
      * cbn [served skipped fold_left]. rewrite app_nil_r.
        apply acknowledge_set_enterOnce.
      * destruct fuel as [|fuel']; [reflexivity|]. cbn [emit_enter].
        rewrite lookup_ge_None_2; [reflexivity|].
        destruct x as [[]|]; cbn; lia.
    + rewrite list_lookup_middle by reflexivity.
      change (on_world _ a)
        with (on_world (set_enterOnce (delete (length pre) (enterOnce (world a)))) a).
      rewrite E, delete_middle.
      replace (S (length pre)) with (length (pre ++ [y]))
        by (rewrite length_app; cbn; lia).
      rewrite (IH (pre ++ [y]) post).
      * cbn [served skipped fold_left].
        rewrite acknowledge_set_enterOnce, acknowledge_all_set_enterOnce.
        rewrite <- app_assoc. reflexivity.
      * rewrite <- app_assoc. destruct x as [[]|]; reflexivity.
      * cbn in Hlen. lia.
Qed.

(** One [enter] key: the listeners of [served] run, in order of
    registration; those of [skipped] stay. *)
Lemma on_enter_eq a :
  on_enter a
  = fold_left (fun acc cb => acknowledge cb acc)
      (served (enterOnce (world a)))
      (on_world (set_enterOnce (skipped (enterOnce (world a)))) a).
Proof.
  unfold on_enter.
  rewrite (emit_enter_eq _ [] (enterOnce (world a)) a) by reflexivity.
  symmetry. apply acknowledge_all_set_enterOnce.
Qed.

Lemma this_on_enter a : this (on_enter a) = this a.
Proof.
  rewrite on_enter_eq.
  apply (acknowledge_all_ind (fun b => this b = this a)); [|reflexivity].
  intros cb b <-. apply this_acknowledge.
Qed.

Lemma this_on_quit a : this (on_quit a) = this a.
Proof.
  unfold on_quit. destruct (visible _); [apply this_toggleHelp|].
  destruct (timer (this a)); reflexivity.
Qed.

Lemma this_on_help_key a : this (on_help_key a) = this a.
Proof.
  unfold on_help_key, show_help_of.
  destruct (helpKey _); [destruct (Nat.eqb _ _)|]; reflexivity.
Qed.

Lemma this_on_tick h a : this (on_tick h a) = this a.
Proof.
  unfold on_tick. destruct (find _ _) as [[? [] ?]|]; cbn;
    auto using this_updateCurrentPrice, this_updatePriceTrend.
Qed.

Lemma this_initDashBoard a : this (state_of (initDashBoard a)) = this a.
Proof.
  unfold initDashBoard, initDashBoard_from.
  match goal with
  | |- context [updateLine ?x] =>
      pose proof (this_updateLine x) as E; destruct (updateLine x);
      cbn [state_of] in *; [change (this (render a0)) with (this a0)|];
      rewrite E
  end; unfold andThen; rewrite this_updateTable; reflexivity.
Qed.

Lemma this_unhandled c : this (unhandled c) = this (state_of c).
Proof. destruct c; reflexivity. Qed.

Lemma this_handle_event ev a : this (handle_event ev a) = this_after ev a.
Proof.
  destruct ev as [| | |ch|idx|h| |sf p t now|r now|r]; cbn [handle_event this_after].
  - apply this_on_quit.
  - apply this_on_help_key.
  - apply this_on_enter.
  - destruct (period_bound ch a); [|reflexivity].
    unfold on_period, andThen. rewrite this_updatePriceTrend. reflexivity.
  - unfold on_select. destruct (running (this a)); cbn; [|reflexivity].
    destruct (currentPrice (data (this a)) ≫= _); [|reflexivity].
    unfold andThen. rewrite this_updatePriceTrend. reflexivity.
  - apply this_on_tick.
  - unfold on_resize, throttle. rewrite this_unhandled. apply this_initDashBoard.
  - unfold init_settled, fetchAll_settled, promise_all.
    destruct p as [res0|e1], t as [res1|e2];
      try (unfold andThen; rewrite this_errorHandler; reflexivity).
    match goal with
    | |- context [updateLine ?x] =>
        pose proof (this_updateLine x) as E; destruct (updateLine x);
        cbn [state_of] in E
    end.
    + rewrite E. unfold andThen. rewrite this_updateTable. reflexivity.
    + unfold andThen. rewrite this_errorHandler.
      change (this (hideLog a0)) with (this a0). rewrite E.
      unfold andThen. rewrite this_updateTable. reflexivity.
  - destruct r as [res|err]; cbn [price_settled].
    + unfold andThen. change (this (hideLog ?x)) with (this x).
      rewrite this_updateTable. reflexivity.
    + apply this_errorHandler.
  - unfold trend_settled. destruct r as [d|err].
    + match goal with
      | |- context [updateLine ?x] =>
          pose proof (this_updateLine x) as E; destruct (updateLine x);
          cbn [state_of] in E
      end.
      * change (this (hideLog a0)) with (this a0). exact E.
      * rewrite this_errorHandler. exact E.
    + apply this_errorHandler.
Qed.

Lemma this_step a ev :
  exited (world a) = None -> this (step a ev) = this_after ev a.
Proof. unfold step. intros ->. apply this_handle_event. Qed.

(** ** The error box and its listeners *)

Lemma calm_refl a : calm a a.
Proof. split; reflexivity. Qed.

Lemma calm_then (g : Action) a b :
  (forall x, calm x (g x)) -> calm a b -> calm a (g b).
Proof.
  intros Hg [E1 E2]. destruct (Hg b) as [E3 E4]. split; congruence.
Qed.

Ltac calm_prim := intros ?; split; reflexivity.

Ltac calm_chain lemmas :=
  unfold andThen;
  repeat (apply calm_then; [first [lemmas | calm_prim]|]);
  apply calm_refl.

Lemma calm_logMsg msg a : calm a (logMsg msg a).
Proof. split; reflexivity. Qed.

Lemma calm_hideLog a : calm a (hideLog a).
Proof. split; reflexivity. Qed.

Lemma calm_toggleHelp a : calm a (toggleHelp a).
Proof. unfold toggleHelp. destruct (visible _); split; reflexivity. Qed.

Lemma calm_updateTable a : calm a (updateTable a).
Proof. unfold updateTable. destruct (running (this a)); split; reflexivity. Qed.

Lemma calm_updateLine a : calm a (state_of (updateLine a)).
Proof.
  unfold updateLine.
  destruct (running (this a)); cbn; [destruct (priceTrend _)|];
    split; reflexivity.
Qed.

Lemma calm_updateCurrentPrice a : calm a (updateCurrentPrice a).
Proof.
  unfold updateCurrentPrice. destruct (running (this a)); split; reflexivity.
Qed.

Lemma calm_updatePriceTrend a : calm a (updatePriceTrend a).
Proof.
  unfold updatePriceTrend. destruct (running (this a)); split; reflexivity.
Qed.

Lemma calm_init a : calm a (init a).
Proof. split; reflexivity. Qed.

Lemma calm_on_quit a : calm a (on_quit a).
Proof.
  unfold on_quit. destruct (visible _); [apply calm_toggleHelp|].
  destruct (timer (this a)); split; reflexivity.
Qed.

Lemma calm_on_help_key a : calm a (on_help_key a).
Proof.
  unfold on_help_key, show_help_of.
  destruct (helpKey _); [destruct (Nat.eqb _ _)|]; split; reflexivity.
Qed.

Lemma calm_on_period ch a : calm a (on_period ch a).
Proof. unfold on_period. calm_chain ltac:(apply calm_updatePriceTrend). Qed.

Lemma calm_on_select idx a : calm a (on_select idx a).
Proof.
  unfold on_select. destruct (running (this a)); cbn [negb]; [|apply calm_refl].
  destruct (_ ≫= _); [|split; reflexivity].
  calm_chain ltac:(apply calm_updatePriceTrend).
Qed.

Lemma calm_on_tick h a : calm a (on_tick h a).
Proof.
  unfold on_tick. destruct (find _ _) as [[? [] ?]|]; cbn;
    auto using calm_updateCurrentPrice, calm_updatePriceTrend, calm_refl.
Qed.

Lemma calm_trans a b c : calm a b -> calm b c -> calm a c.
Proof. intros [E1 E2] [E3 E4]. split; congruence. Qed.

(** A successful fetch leaves the error box alone; so does a failure
    that is not an HTTP error. *)
Lemma calm_fatal err cb a : isHttpError err = false -> calm a (errorHandler err cb a).
Proof. unfold errorHandler. intros ->. split; reflexivity. Qed.

Lemma calm_init_resolved d now a : calm a (init_settled (Resolved d) now a).
Proof.
  unfold init_settled.
  match goal with
  | |- context [updateLine ?x] =>
      assert (Hx : calm a x);
      [|pose proof (calm_updateLine x) as E; destruct (updateLine x);
        cbn [state_of] in E]
  end.
  - calm_chain ltac:(first [apply calm_updateTable | apply calm_hideLog]).
  - exact (calm_trans _ _ _ Hx E).
  - apply (calm_trans _ _ _ Hx). apply (calm_trans _ _ _ E).
    unfold andThen. apply calm_then; [|apply calm_hideLog].
    intros x. apply calm_fatal. reflexivity.
Qed.

Lemma calm_price_resolved res now a :
  calm a (price_settled (Resolved res) now a).
Proof.
  cbn [price_settled].
  calm_chain ltac:(first [apply calm_updateTable | apply calm_hideLog]).
Qed.

Lemma calm_trend_resolved d a : calm a (trend_settled (Resolved d) a).
Proof.
  unfold trend_settled.
  match goal with
  | |- context [updateLine ?x] =>
      pose proof (calm_updateLine x) as E; destruct (updateLine x);
      cbn [state_of] in E
  end.
  - eapply calm_trans; [|apply calm_hideLog].
    destruct E. split; assumption.
  - eapply calm_trans; [|apply calm_fatal; reflexivity].
    destruct E. split; assumption.
Qed.

(** What [errorHandler] does with an HTTP error. *)
Lemma errorHandler_http err cb a :
  isHttpError err = true ->
  let b := errorHandler err cb a in
  (this b = this a) /\
  (error (dash b) = show (setContent (HttpError (status err)) (error (dash a)))) /\
  (enterOnce (world b) = enterOnce (world a) ++ [cb]) /\
  (focused (world b) = Some (FocusError (generation a))) /\
  (exited (world b) = exited (world a)) /\
  (intervals (world b) = intervals (world a)) /\
  (requests (world b) = requests (world a)).
Proof. unfold errorHandler. intros ->. repeat split. Qed.

(** ... and with any other error. *)
Lemma errorHandler_fatal err cb a :
  isHttpError err = false ->
  errorHandler err cb a = process_exit 1 a.
Proof. unfold errorHandler. intros ->. reflexivity. Qed.

(** One listener of the [enter] key at work. *)
Lemma acknowledge_effect cb a :
  let b := acknowledge cb a in
  (visible (error (dash b)) = false) /\
  (focused (world b) = Some (FocusTable (generation a))) /\
  (generation b = generation a) /\
  (exited (world b) = exited (world a)) /\
  (intervals (world b) = intervals (world a)) /\
  (enterOnce (world b) = enterOnce (world a)).
Proof. destruct cb as [[]|]; repeat split. Qed.

Lemma acknowledge_requests cb a :
  requests (world (acknowledge cb a))
  = requests (world a) ++ requests_of cb (this a).
Proof.
  destruct cb as [[]|]; cbn.
  - rewrite <- app_assoc. reflexivity.
  - rewrite app_nil_r. reflexivity.
Qed.

Lemma acknowledge_all_effect cbs b :
  let c := fold_left (fun acc cb => acknowledge cb acc) cbs b in
  (cbs <> [] ->
   visible (error (dash c)) = false /\
   focused (world c) = Some (FocusTable (generation b))) /\
  (this c = this b) /\
  (generation c = generation b) /\
  (exited (world c) = exited (world b)) /\
  (intervals (world c) = intervals (world b)) /\
  (enterOnce (world c) = enterOnce (world b)) /\
  (requests (world c)
   = requests (world b) ++ flat_map (fun cb => requests_of cb (this b)) cbs).
Proof.
  revert b. induction cbs as [|cb cbs IH]; intros b; cbn [fold_left flat_map].
  - rewrite app_nil_r. split; [intros H; congruence|repeat split].
  - destruct (IH (acknowledge cb b)) as (Hlast & Hthis & Hgen & Hex & Hint & Hent & Hreq).
    destruct (acknowledge_effect cb b) as (Hv & Hf & Hg & He & Hi & Ho).
    cbn zeta in *.
    split; [|repeat split].
    + intros _. destruct cbs as [|cb' cbs'].
      * cbn. split; assumption.
      * rewrite Hg in Hlast. apply Hlast. discriminate.
    + rewrite Hthis. apply this_acknowledge.
    + congruence.
    + congruence.
    + congruence.
    + congruence.
    + rewrite Hreq, acknowledge_requests, this_acknowledge, app_assoc. reflexivity.
Qed.

(** The [enter] key with at least one listener waiting. *)
Lemma on_enter_effect a :
  enterOnce (world a) <> [] ->
  let b := on_enter a in
  (visible (error (dash b)) = false) /\
  (focused (world b) = Some (FocusTable (generation a))) /\
  (this b = this a) /\
  (exited (world b) = exited (world a)) /\
  (intervals (world b) = intervals (world a)) /\
  (enterOnce (world b) = skipped (enterOnce (world a))) /\
  (requests (world b)
   = requests (world a)
     ++ flat_map (fun cb => requests_of cb (this a))
          (served (enterOnce (world a)))) /\
  (generation b = generation a).
Proof.
  intros Hne. rewrite on_enter_eq.
  destruct (acknowledge_all_effect (served (enterOnce (world a)))
              (on_world (set_enterOnce (skipped (enterOnce (world a)))) a))
    as (Hlast & Hthis & Hgen & Hex & Hint & Hent & Hreq).
  destruct Hlast as [Hv Hf].
  { destruct (enterOnce (world a)) as [|? [|? ?]]; [congruence|discriminate..]. }
  cbn zeta in *.
  repeat split; assumption.
Qed.

(** ** Invariants of a constructed instance *)

Lemma timer_this_after ev a : timer (this_after ev a) = timer (this a).
Proof.
  destruct ev as [| | |ch|idx|h| |sf [?|?] [?|?] now|[?|?] now|[?|?]];
    cbn [this_after]; try reflexivity.
  - destruct (period_bound ch a); reflexivity.
  - destruct (running (this a)); [destruct (_ ≫= _)|]; reflexivity.
Qed.

Lemma snoc_not_nil {A} (l : list A) (x : A) : l ++ [x] <> [].
Proof. destruct l; discriminate. Qed.

Lemma ack_errorHandler err cb a :
  (visible (error (dash a)) = true -> enterOnce (world a) <> []) ->
  let b := errorHandler err cb a in
  visible (error (dash b)) = true -> enterOnce (world b) <> [].
Proof.
  intros Ha. destruct (isHttpError err) eqn:E.
  - destruct (errorHandler_http err cb a E) as (_ & _ & Ent & _).
    cbn zeta in *. intros _. rewrite Ent. apply snoc_not_nil.
  - rewrite errorHandler_fatal by assumption. exact Ha.
Qed.

Lemma inv_handle_event ev a : inv a -> inv (handle_event ev a).
Proof.
  intros Ha.
  assert (Ht : timer (this (handle_event ev a)) = None).
  { rewrite this_handle_event, timer_this_after. apply Ha. }
  split; [exact Ht|]. clear Ht. destruct Ha as [_ Hack].
  assert (Hcalm : forall b, calm a b ->
            visible (error (dash b)) = true -> enterOnce (world b) <> []).
  { intros b [Ee Eo]. rewrite Ee, Eo. exact Hack. }
  destruct ev as [| | |ch|idx|h| |sf p t now|r now|r]; cbn [handle_event].
  - apply Hcalm, calm_on_quit.
  - apply Hcalm, calm_on_help_key.
  - destruct (enterOnce (world a)) as [|cb cbs] eqn:E.
    + unfold on_enter. rewrite E. cbn. rewrite E. exact Hack.
    + destruct (on_enter_effect a) as (Hv & _); [congruence|].
      cbn zeta in Hv. rewrite Hv. discriminate.
  - destruct (period_bound ch a); [apply Hcalm, calm_on_period|exact Hack].
  - apply Hcalm, calm_on_select.
  - apply Hcalm, calm_on_tick.
  - unfold on_resize, throttle, initDashBoard, initDashBoard_from.
    match goal with
    | |- context [updateLine ?x] =>
        assert (Hx : error (dash x) = hide new_box);
        [|pose proof (calm_updateLine x) as [E _]; destruct (updateLine x);
          cbn [state_of unhandled] in *]
    end.
    + unfold andThen. destruct (calm_updateTable
        (drawHelp {| this := this a; dash := new_dashboard (this a);
                     world := set_orphans (orphans (world a) ++ [dash a]) (world a) |}))
        as [-> _]. reflexivity.
    + change (error (dash (render a0))) with (error (dash a0)).
      rewrite E, Hx. discriminate.
    + change (error (dash (uncaught a0))) with (error (dash a0)).
      rewrite E, Hx. discriminate.
  - destruct (fetchAll_settled sf p t) as [d|err].
    + apply Hcalm, calm_init_resolved.
    + unfold init_settled, andThen. apply ack_errorHandler. exact Hack.
  - destruct r as [res|err].
    + apply Hcalm, calm_price_resolved.
    + cbn [price_settled]. apply ack_errorHandler. exact Hack.
  - destruct r as [d|err].
    + apply Hcalm, calm_trend_resolved.
    + unfold trend_settled. apply ack_errorHandler. exact Hack.
Qed.

Lemma inv_step a ev : inv a -> inv (step a ev).
Proof.
  intros Ha. unfold step. destruct (exited (world a)); [exact Ha|].
  apply inv_handle_event, Ha.
Qed.

Lemma inv_run a evs : inv a -> inv (run a evs).
Proof.
  revert a. induction evs as [|ev evs IH]; intros a Ha; cbn; [assumption|].
  apply IH, inv_step, Ha.
Qed.

Lemma inv_constructor cfg ex ms : inv (constructor cfg ex ms).
Proof. split; [reflexivity|]. cbn. discriminate. Qed.

Lemma inv_reachable cfg ex ms a : reachable cfg ex ms a -> inv a.
Proof. intros [evs ->]. apply inv_run, inv_constructor. Qed.

(** ** Period keys *)

Lemma periodKeys_seq ps : periodKeys ps = map S (seq 0 (length ps)).
Proof.
  unfold periodKeys.
  rewrite (imap_seq_0 (replicate (length ps) 1) (fun idx => idx + 1)).
  rewrite length_replicate. apply map_ext. intros i. lia.
Qed.

(** The bound keys are [1 .. periods.length]. *)
Lemma period_bound_range ch a :
  period_bound ch a = true <->
  1 <= ch <= length (Exchange.periods (exchange (this a))).
Proof.
  unfold period_bound. rewrite periodKeys_seq, existsb_exists. split.
  - intros (k & Hin & Hk). apply in_map_iff in Hin as (i & <- & Hi).
    apply in_seq in Hi. apply Nat.eqb_eq in Hk. lia.
  - intros H. exists ch. split; [|apply Nat.eqb_refl].
    apply in_map_iff. exists (ch - 1). split; [lia|]. apply in_seq. lia.
Qed.

Lemma period_bound_lookup ch a :
  period_bound ch a = true ->
  exists p, Exchange.periods (exchange (this a)) !! (ch - 1) = Some p /\
            In p (Exchange.periods (exchange (this a))).
Proof.
  intros H. apply period_bound_range in H.
  destruct (lookup_lt_is_Some_2 (Exchange.periods (exchange (this a))) (ch - 1))
    as [p Hp]; [lia|].
  exists p. split; [exact Hp|].
  apply list_elem_of_In, list_elem_of_lookup. eauto.
Qed.

(** * The claims *)

(** ** Construction *)

(** C9. The constructor sets [currentMarket] to the first element of
    [markets], and [currentPeriod] to [exchange.defaultPeriod] when that
    field is set (to a non-empty, hence truthy, string) and to the first
    element of [exchange.periods] when it is undefined. *)
Theorem constructor_selection cfg ex ms :
  currentMarket (this (constructor cfg ex ms)) = ms !! 0 /\
  (forall p, Exchange.defaultPeriod ex = Some p -> truthy p = true ->
             currentPeriod (this (constructor cfg ex ms)) = Some p) /\
  (Exchange.defaultPeriod ex = None ->
   currentPeriod (this (constructor cfg ex ms)) = Exchange.periods ex !! 0).
Proof.
  split; [reflexivity|]. split.
  - intros p Hp Ht. cbn. rewrite Hp. cbn. rewrite Ht. reflexivity.
  - intros Hp. cbn. rewrite Hp. reflexivity.
Qed.

Lemma constructor_selection_witness :
  currentPeriod (this (constructor cfg0 ex_default mk0)) = Some "1d" /\
  currentPeriod (this (constructor cfg0 ex0 mk0)) = Some "1h".
Proof.
  split.
  - apply (proj1 (proj2 (constructor_selection cfg0 ex_default mk0)) "1d");
      reflexivity.
  - apply (proj2 (proj2 (constructor_selection cfg0 ex0 mk0))). reflexivity.
Defined.

(** An empty string is not a default: [||] falls through to
    [periods[0]]. *)
Lemma constructor_empty_default cfg ex ms :
  Exchange.defaultPeriod ex = Some "" ->
  currentPeriod (this (constructor cfg ex ms)) = Exchange.periods ex !! 0.
Proof. intros Hp. cbn. rewrite Hp. reflexivity. Qed.

(** ** The [running] flag *)

Lemma running_this_after ev a :
  running (this_after ev a) = true ->
  running (this a) = true \/
  exists sf res0 res1 now,
    ev = InitSettled sf (Resolved res0) (Resolved res1) now.
Proof.
  destruct ev as [| | |ch|idx|h| |sf [?|?] [?|?] now|[?|?] now|[?|?]];
    cbn [this_after]; auto.
  - destruct (period_bound ch a); cbn; auto.
  - destruct (running (this a)) eqn:E; [intros _; left; reflexivity|].
    cbn. intros H. congruence.
  - intros _. right. eauto.
Qed.

Lemma running_kept ev a :
  running (this a) = true -> running (this_after ev a) = true.
Proof.
  destruct ev as [| | |ch|idx|h| |sf [?|?] [?|?] now|[?|?] now|[?|?]];
    cbn [this_after]; auto.
  - destruct (period_bound ch a); cbn; auto.
  - intros H. rewrite H. destruct (_ ≫= _); cbn; exact H.
Qed.

Lemma running_step a ev :
  running (this a) = true -> running (this (step a ev)) = true.
Proof.
  intros H. unfold step. destruct (exited (world a)); [exact H|].
  rewrite this_handle_event. apply running_kept, H.
Qed.

Lemma running_run a evs :
  running (this a) = true -> running (this (run a evs)) = true.
Proof.
  revert a. induction evs as [|ev evs IH]; intros a H; cbn; [exact H|].
  apply IH, running_step, H.
Qed.

(** A rejected fetch, as seen from the state. *)
Lemma step_failure a ev err :
  exited (world a) = None ->
  failure_of ev = Some err ->
  step a ev = errorHandler err None a \/
  step a ev = errorHandler err (Some InitCb) (hideLog a).
Proof.
  intros Hex Hev. unfold step. rewrite Hex.
  destruct ev as [| | |ch|idx|h| |sf p t now|[?|?] now|[?|?]];
    cbn [failure_of] in Hev; try discriminate.
  - right. cbn [handle_event]. unfold init_settled.
    destruct (fetchAll_settled sf p t); [discriminate|].
    injection Hev as ->. reflexivity.
  - left. injection Hev as ->. reflexivity.
  - left. injection Hev as ->. reflexivity.
Qed.

(** The promise [fetchAll] returns rejects with the error of the first
    request to fail. *)
Lemma failure_of_rejection ev : failure_of ev = rejection_of ev.
Proof.
  destruct ev as [| | |ch|idx|h| |sf [?|?] [?|?] now|r now|r]; reflexivity.
Qed.

(** C2. [running] is false after construction; an event turns it on only
    if it is the cold-start fetch resolving with both the prices and the
    trend; and once on it stays on through every later event.  A fetch
    that fails with an HTTP error shows the error box and leaves
    [running] as it was. *)
Theorem running_latches :
  (forall cfg ex ms, running (this (constructor cfg ex ms)) = false) /\
  (forall a ev,
     running (this a) = false -> running (this (step a ev)) = true ->
     exists sf res0 res1 now,
       ev = InitSettled sf (Resolved res0) (Resolved res1) now) /\
  (forall a evs,
     running (this a) = true -> running (this (run a evs)) = true) /\
  (forall a ev err,
     exited (world a) = None -> failure_of ev = Some err ->
     isHttpError err = true ->
     running (this (step a ev)) = running (this a) /\
     visible (error (dash (step a ev))) = true /\
     exited (world (step a ev)) = None).
Proof.
  split; [reflexivity|]. split; [|split].
  - intros a ev Hoff Hon. unfold step in Hon.
    destruct (exited (world a)); [congruence|].
    rewrite this_handle_event in Hon.
    destruct (running_this_after ev a Hon) as [H|H]; [congruence|exact H].
  - apply running_run.
  - intros a ev err Hex Hev Hhttp.
    destruct (step_failure a ev err Hex Hev) as [-> | ->];
      match goal with
      | |- context [errorHandler err ?cb ?x] =>
          destruct (errorHandler_http err cb x Hhttp)
            as (Ht & He & _ & _ & Hx & _)
      end; cbn zeta in *; rewrite Ht, He, Hx; repeat split; assumption.
Qed.

Lemma running_latches_witness :
  running (this (run started
                   [Tick 0; PriceSettled (Rejected http500) 2000%N; KeyEnter]))
  = true /\
  visible (error (dash (step started (PriceSettled (Rejected http500) 2000%N))))
  = true /\
  exists sf res0 res1 now,
    cold_ok = InitSettled sf (Resolved res0) (Resolved res1) now.
Proof.
  split; [|split].
  - apply (proj1 (proj2 (proj2 running_latches)) started). reflexivity.
  - apply (proj2 (proj2 (proj2 running_latches)) started
             (PriceSettled (Rejected http500) 2000%N) http500); reflexivity.
  - apply (proj1 (proj2 running_latches) (constructor cfg0 ex0 mk0) cold_ok);
      reflexivity.
Defined.

(** ** Who writes what *)

Lemma lastUpdate_this_after ev a :
  lastUpdate (this_after ev a) <> lastUpdate (this a) ->
  (exists sf res0 res1 now,
     ev = InitSettled sf (Resolved res0) (Resolved res1) now) \/
  (exists res now, ev = PriceSettled (Resolved res) now).
Proof.
  destruct ev as [| | |ch|idx|h| |sf [?|?] [?|?] now|[?|?] now|[?|?]];
    cbn [this_after]; try congruence.
  - destruct (period_bound ch a); cbn; congruence.
  - destruct (running (this a)); [destruct (_ ≫= _)|]; cbn; congruence.
  - intros _. left. eauto.
  - intros _. right. eauto.
  - cbn. congruence.
Qed.

(** C10. A trend fetch that succeeds leaves [lastUpdate] and the stored
    price entries as they were, and so do the events that issue one (a
    timer, a period key, a row selection); [lastUpdate] changes only
    when the cold-start fetch or a price fetch resolves. *)
Theorem trend_fetch_frame :
  (forall a d,
     lastUpdate (this (step a (TrendSettled (Resolved d)))) = lastUpdate (this a) /\
     currentPrice (data (this (step a (TrendSettled (Resolved d)))))
     = currentPrice (data (this a))) /\
  (forall a h ch idx ev,
     ev = Tick h \/ ev = KeyPeriod ch \/ ev = RowSelect idx ->
     lastUpdate (this (step a ev)) = lastUpdate (this a) /\
     currentPrice (data (this (step a ev))) = currentPrice (data (this a))) /\
  (forall a ev,
     lastUpdate (this (step a ev)) <> lastUpdate (this a) ->
     (exists sf res0 res1 now,
        ev = InitSettled sf (Resolved res0) (Resolved res1) now) \/
     (exists res now, ev = PriceSettled (Resolved res) now)).
Proof.
  split; [|split].
  - intros a d. unfold step. destruct (exited (world a)); [split; reflexivity|].
    rewrite this_handle_event. split; reflexivity.
  - intros a h ch idx ev Hev. unfold step.
    destruct (exited (world a)); [split; reflexivity|].
    rewrite this_handle_event.
    destruct Hev as [-> | [-> | ->]]; cbn [this_after].
    + split; reflexivity.
    + destruct (period_bound ch a); split; reflexivity.
    + destruct (running (this a)); [destruct (_ ≫= _)|]; split; reflexivity.
  - intros a ev H. unfold step in H.
    destruct (exited (world a)); [congruence|].
    rewrite this_handle_event in H. apply lastUpdate_this_after in H. exact H.
Qed.

Lemma trend_fetch_frame_witness :
  lastUpdate (this (step started (Tick 1))) = Some 1000%N /\
  exists res now,
    PriceSettled (Resolved prices0) 2000%N = PriceSettled (Resolved res) now.
Proof.
  split.
  - apply (proj1 (proj2 trend_fetch_frame) started 1 0 0 (Tick 1)).
    left. reflexivity.
  - destruct (proj2 (proj2 trend_fetch_frame) started
                (PriceSettled (Resolved prices0) 2000%N))
      as [(sf & res0 & res1 & now & H) | H].
    + cbn. discriminate.
    + discriminate H.
    + exact H.
Defined.

(** ** Trend results *)

(** C1, as the code has it.  A trend fetch that resolves stores the
    series it delivers, whatever market the series describes: the
    continuation does not look at [currentMarket], which it leaves as it
    is; a running dashboard draws the series under the series' own
    market name. *)
Theorem trend_settled_replaces a d :
  exited (world a) = None ->
  let b := step a (TrendSettled (Resolved d)) in
  priceTrend (data (this b)) = Some d /\
  currentMarket (this b) = currentMarket (this a) /\
  (running (this a) = true ->
   line (dash b)
   = {| line_data := Some d;
        line_label := LineTrend (Trend.currentMarket d) (currentPeriod (this a)) |}).
Proof.
  intros Hex. cbn zeta. split; [|split].
  - rewrite this_step by assumption. reflexivity.
  - rewrite this_step by assumption. reflexivity.
  - intros Hrun. unfold step. rewrite Hex. cbn [handle_event].
    unfold trend_settled, updateLine. cbn. rewrite Hrun. reflexivity.
Qed.

Lemma trend_settled_replaces_witness :
  exited (world switched) = None /\
  priceTrend (data (this (step switched (TrendSettled (Resolved btc_late)))))
  = Some btc_late.
Proof.
  split; [reflexivity|].
  apply (trend_settled_replaces switched btc_late). reflexivity.
Defined.

(** C1, as stated, fails: with ETH selected, the late BTC series is
    stored (and drawn) all the same. *)
Lemma stale_trend_overwrites :
  let b := step switched (TrendSettled (Resolved btc_late)) in
  currentMarket (this switched) = Some "ETH" /\
  Trend.currentMarket btc_late = "BTC" /\
  priceTrend (data (this switched)) = Some btc_1h /\
  currentMarket (this b) = Some "ETH" /\
  priceTrend (data (this b)) = Some btc_late /\
  priceTrend (data (this b)) <> priceTrend (data (this switched)).
Proof. cbn. repeat split. discriminate. Qed.

(** ** The quit key *)

(** With the help box of [this.help] visible, the quit key hides it and
    does nothing else: the process is not terminated, and the timers
    and the fields of [this] are untouched. *)
Lemma quit_closes_help a :
  exited (world a) = None ->
  visible (help (dash a)) = true ->
  let b := step a KeyQuit in
  visible (help (dash b)) = false /\
  exited (world b) = None /\
  intervals (world b) = intervals (world a) /\
  this b = this a.
Proof.
  intros Hex Hvis. unfold step. rewrite Hex. cbn [handle_event].
  unfold on_quit, toggleHelp. rewrite Hvis. cbn. auto.
Qed.

Lemma quit_closes_help_witness :
  visible (help (dash (step helped KeyQuit))) = false /\
  exited (world (step helped KeyQuit)) = None.
Proof.
  destruct (quit_closes_help helped) as (H1 & H2 & _); try reflexivity.
  split; assumption.
Defined.

(** In every state a constructed instance can reach, [this.timer] is
    undefined: the handles are kept in [this.timers]. *)
Lemma timer_undefined cfg ex ms a :
  reachable cfg ex ms a -> timer (this a) = None.
Proof. intros H. apply inv_reachable in H. apply H. Qed.

(** The quit key with the help box hidden: the process exits with code
    0, and no interval is cleared on the way. *)
Lemma quit_exits cfg ex ms a :
  reachable cfg ex ms a ->
  exited (world a) = None ->
  visible (help (dash a)) = false ->
  let b := step a KeyQuit in
  exited (world b) = Some (ProcessExit 0) /\
  intervals (world b) = intervals (world a).
Proof.
  intros Hr Hex Hvis. unfold step. rewrite Hex. cbn [handle_event].
  unfold on_quit. rewrite Hvis, (timer_undefined _ _ _ _ Hr). cbn. auto.
Qed.

(** C4, at a concrete state.  The quit key ends the process with code 0,
    but both intervals made by [setInterval] are still registered: the
    handler reads [this.timer], which is undefined, instead of the two
    handles in [this.timers]. *)
Theorem quit_leaves_intervals :
  let a := started in
  let b := step a KeyQuit in
  visible (help (dash a)) = false /\
  timers (this a) = Some {| price_timer := 0; trend_timer := 1 |} /\
  timer (this a) = None /\
  exited (world b) = Some (ProcessExit 0) /\
  intervals (world b)
  = [ {| handle := 0; fn := UpdateCurrentPrice; delay := 10000%N |};
      {| handle := 1; fn := UpdatePriceTrend; delay := 60000%N |} ].
Proof. cbn. repeat split. Qed.

(** After a resize the [?] key still shows the help box of the first
    dashboard, which [this.help] no longer refers to; the quit key tests
    [this.help] and ends the process. *)
Lemma help_of_replaced_dashboard :
  let a := run started [Resize; KeyHelp] in
  (help <$> orphans (world a) !! 0) = Some (show (help (dash started))) /\
  visible (help (dash a)) = false /\
  exited (world (step a KeyQuit)) = Some (ProcessExit 0).
Proof. cbn. repeat split. Qed.


(** ** Period keys and row selection *)

(** A bound period key on a running dashboard: the period changes and
    the trend is requested at once. *)
Lemma period_key_running ch a :
  exited (world a) = None ->
  running (this a) = true ->
  period_bound ch a = true ->
  let p := Exchange.periods (exchange (this a)) !! (ch - 1) in
  let b := step a (KeyPeriod ch) in
  currentPeriod (this b) = p /\
  requests (world b)
  = requests (world a)
    ++ [GetPriceTrend (exchange (this a)) (currentMarket (this a)) p].
Proof.
  intros Hex Hrun Hb. unfold step. rewrite Hex. cbn [handle_event].
  rewrite Hb. unfold on_period, updatePriceTrend, andThen. cbn.
  rewrite Hrun. cbn. auto.
Qed.

(** ... and before the dashboard runs: no request, but the period
    changes all the same. *)
Lemma period_key_not_running ch a :
  exited (world a) = None ->
  running (this a) = false ->
  period_bound ch a = true ->
  let b := step a (KeyPeriod ch) in
  currentPeriod (this b) = Exchange.periods (exchange (this a)) !! (ch - 1) /\
  requests (world b) = requests (world a).
Proof.
  intros Hex Hrun Hb. unfold step. rewrite Hex. cbn [handle_event].
  rewrite Hb. unfold on_period, updatePriceTrend, andThen. cbn.
  rewrite Hrun. cbn. auto.
Qed.

(** The listener of row selections does check [running] first. *)
Lemma row_select_not_running idx a :
  running (this a) = false -> step a (RowSelect idx) = a.
Proof.
  intros Hrun. unfold step. destruct (exited (world a)); [reflexivity|].
  cbn [handle_event]. unfold on_select. rewrite Hrun. reflexivity.
Qed.

(** C5, at a concrete state.  Key [2] pressed while the cold-start fetch
    is pending: [running] is false, no request goes out, yet
    [currentPeriod] moves from "1h" to "1d"; when the cold-start fetch
    (issued for "1h") then resolves, its series is drawn under the
    label "1d". *)
Theorem period_key_before_running :
  let a := constructor cfg0 ex0 mk0 in
  let b := step a (KeyPeriod 2) in
  let c := step b cold_ok in
  running (this a) = false /\
  currentPeriod (this a) = Some "1h" /\
  currentPeriod (this b) = Some "1d" /\
  requests (world b) = requests (world a) /\
  requests (world a)
  = [GetCurrentPrice ex0 mk0; GetPriceTrend ex0 (Some "BTC") (Some "1h")] /\
  line (dash c)
  = {| line_data := Some btc_1h; line_label := LineTrend "BTC" (Some "1d") |}.
Proof. cbn. repeat split. Qed.

(** ** Fetch failures *)

(** C7, as stated, fails: an error carrying a response, but a response
    without its request, ends the process with exit code 1, whichever
    fetch it comes from. *)
Lemma response_without_request_exits :
  response bare_response <> None /\
  exited (world (step started (PriceSettled (Rejected bare_response) 2000%N)))
  = Some (ProcessExit 1) /\
  exited (world (step started (TrendSettled (Rejected bare_response))))
  = Some (ProcessExit 1) /\
  exited (world (step (constructor cfg0 ex0 mk0)
                   (InitSettled false (Rejected bare_response)
                      (Resolved btc_1h) 1000%N)))
  = Some (ProcessExit 1).
Proof. cbn. repeat split. discriminate. Qed.

(** C7, as the code has it.  Whichever request fails - one of the two
    of the cold start, the price request or the trend request - the
    rejection reaches [errorHandler].  An error whose response carries
    its request ([err.response && err.response.request]) shows the error
    box with the status, registers the acknowledgement listener (with
    [init] bound after a cold start) and leaves the process alive and
    [this] as it was; any other error, one with a response without
    request included, ends the process with exit code 1. *)
Theorem fetch_failure_policy a ev err :
  exited (world a) = None ->
  rejection_of ev = Some err ->
  let b := step a ev in
  (isHttpError err = true ->
   visible (error (dash b)) = true /\
   content (error (dash b)) = HttpError (status err) /\
   (exists cb, enterOnce (world b) = enterOnce (world a) ++ [cb] /\
      (cb = Some InitCb <-> exists sf p t now, ev = InitSettled sf p t now)) /\
   this b = this a /\
   exited (world b) = None) /\
  (isHttpError err = false ->
   exited (world b) = Some (ProcessExit 1)).
Proof.
  intros Hex Hev. cbn zeta.
  assert (Hcb : step a ev = errorHandler err None a /\
                  ~ (exists sf p t now, ev = InitSettled sf p t now) \/
                step a ev = errorHandler err (Some InitCb) (hideLog a) /\
                  (exists sf p t now, ev = InitSettled sf p t now)).
  { unfold step. rewrite Hex.
    destruct ev as [| | |ch|idx|h| |sf [?|e1] [?|e2] now|[?|?] now|[?|?]];
      cbn [rejection_of] in Hev; try discriminate; injection Hev as <-;
      try (right; split; [reflexivity|eauto]);
      left; (split; [reflexivity|]); intros (? & ? & ? & ? & ?); discriminate. }
  split; intros Hhttp.
  - destruct Hcb as [[-> Hn] | [-> Hy]];
      match goal with
      | |- context [errorHandler err ?cb ?x] =>
          destruct (errorHandler_http err cb x Hhttp)
            as (Ht & He & Ho & _ & Hx & _)
      end; cbn zeta in *; rewrite He, Ho, Hx, Ht.
    + repeat split; auto. exists None. split; [reflexivity|].
      split; [discriminate|]. intros H. contradiction.
    + repeat split; auto. exists (Some InitCb). split; [reflexivity|].
      split; auto.
  - destruct Hcb as [[-> _] | [-> _]];
      rewrite errorHandler_fatal by assumption; reflexivity.
Qed.

Lemma fetch_failure_policy_witness :
  visible (error (dash (step started (TrendSettled (Rejected http500))))) = true /\
  exited (world (step started (TrendSettled (Rejected http500)))) = None /\
  exited (world (step started (PriceSettled (Rejected refused) 2000%N)))
  = Some (ProcessExit 1).
Proof.
  destruct (fetch_failure_policy started (TrendSettled (Rejected http500)) http500)
    as [H1 _]; try reflexivity.
  destruct (fetch_failure_policy started
              (PriceSettled (Rejected refused) 2000%N) refused)
    as [_ H2]; try reflexivity.
  destruct H1 as (Hv & _ & _ & _ & Hx); [reflexivity|].
  split; [exact Hv|]. split; [exact Hx|]. apply H2. reflexivity.
Defined.

(** ** The error box *)


(** Two failures wait for their acknowledgement: one [enter] key runs
    the listener of the first and leaves that of the second, which the
    next [enter] key runs. *)
Lemma enter_serves_every_other :
  let b := step failed_twice KeyEnter in
  enterOnce (world failed_twice) = [None; None] /\
  visible (error (dash b)) = false /\
  enterOnce (world b) = [None] /\
  frames (world b) = S (frames (world failed_twice)) /\
  enterOnce (world (step b KeyEnter)) = [].
Proof. cbn. repeat split. Qed.



(** ** Selections stay within the lists *)

Lemma selection_ok_constructor cfg ex ms :
  ms <> [] ->
  Exchange.periods ex <> [] ->
  (forall p, Exchange.defaultPeriod ex = Some p -> truthy p = true ->
             In p (Exchange.periods ex)) ->
  selection_ok ex ms (constructor cfg ex ms).
Proof.
  intros Hms Hps Hdef. split; cbn.
  - reflexivity.
  - destruct ms as [|m ms']; [congruence|]. exists m. cbn. auto.
  - assert (Hhead : exists p, Exchange.periods ex !! 0 = Some p /\
                              In p (Exchange.periods ex)).
    { destruct (Exchange.periods ex) as [|p ps]; [congruence|].
      exists p. cbn. auto. }
    unfold or_else. destruct (Exchange.defaultPeriod ex) as [p|]; [|exact Hhead].
    destruct (truthy p) eqn:Ht; [|exact Hhead].
    exists p. split; [reflexivity|]. apply Hdef; auto.
  - discriminate.
Qed.

Lemma selection_ok_after ex ms ev a :
  api_faithful ms ev ->
  selection_ok ex ms a ->
  exchange (this_after ev a) = ex /\
  (exists m, currentMarket (this_after ev a) = Some m /\ In m ms) /\
  (exists p, currentPeriod (this_after ev a) = Some p /\
             In p (Exchange.periods ex)) /\
  (forall es, currentPrice (data (this_after ev a)) = Some es ->
              named_after ms es).
Proof.
  intros Hev [Hex Hm Hp Hes].
  assert (Hsame : exchange (this a) = ex /\
    (exists m, currentMarket (this a) = Some m /\ In m ms) /\
    (exists p, currentPeriod (this a) = Some p /\ In p (Exchange.periods ex)) /\
    (forall es, currentPrice (data (this a)) = Some es -> named_after ms es))
    by (repeat split; assumption).
  destruct ev as [| | |ch|idx|h| |sf [?|?] [?|?] now|[?|?] now|[?|?]];
    cbn [this_after api_faithful] in *; try exact Hsame.
  - destruct (period_bound ch a) eqn:Hb; [|exact Hsame].
    destruct (period_bound_lookup ch a Hb) as (p & Hl & Hin).
    rewrite Hex in Hl, Hin. cbn. rewrite Hex, Hl. repeat split; eauto.
  - destruct (running (this a)); [|exact Hsame].
    destruct (currentPrice (data (this a)) ≫= _) as [e|] eqn:Ee; [|exact Hsame].
    cbn. repeat split; auto.
    exists (PriceEntry.name e). split; [reflexivity|].
    destruct (currentPrice (data (this a))) as [es|]; [|discriminate Ee].
    cbn in Ee. specialize (Hes es eq_refl). unfold named_after in Hes.
    rewrite Forall_forall in Hes. apply Hes.
    apply list_elem_of_lookup. eauto.
  - cbn. repeat split; auto. intros es [= <-]. exact Hev.
  - cbn. repeat split; auto. intros es [= <-]. exact Hev.
Qed.

Lemma selection_ok_step ex ms ev a :
  api_faithful ms ev -> selection_ok ex ms a -> selection_ok ex ms (step a ev).
Proof.
  intros Hev Ha. unfold step. destruct (exited (world a)); [exact Ha|].
  destruct (selection_ok_after ex ms ev a Hev Ha) as (H1 & H2 & H3 & H4).
  split; rewrite this_handle_event; assumption.
Qed.

Lemma selection_ok_run ex ms evs a :
  Forall (api_faithful ms) evs ->
  selection_ok ex ms a -> selection_ok ex ms (run a evs).
Proof.
  intros Hevs. revert a. induction Hevs as [|ev evs Hev _ IH]; intros a Ha; cbn;
    [assumption|].
  apply IH, selection_ok_step; assumption.
Qed.

(** C6, as the code has it.  Provided the list of markets is not empty,
    [exchange.periods] is not empty and holds [exchange.defaultPeriod]
    when that is set, and the data source names every price entry after
    a market of the list, then after every sequence of events
    [currentMarket] is one of the markets and [currentPeriod] one of the
    periods. *)
Theorem selection_stays_valid cfg ex ms evs :
  ms <> [] ->
  Exchange.periods ex <> [] ->
  (forall p, Exchange.defaultPeriod ex = Some p -> truthy p = true ->
             In p (Exchange.periods ex)) ->
  Forall (api_faithful ms) evs ->
  let a := run (constructor cfg ex ms) evs in
  (exists m, currentMarket (this a) = Some m /\ In m ms) /\
  (exists p, currentPeriod (this a) = Some p /\ In p (Exchange.periods ex)).
Proof.
  intros Hms Hps Hdef Hevs. cbn zeta.
  destruct (selection_ok_run ex ms evs (constructor cfg ex ms) Hevs
              (selection_ok_constructor cfg ex ms Hms Hps Hdef))
    as [_ Hm Hp _].
  split; assumption.
Qed.

Lemma selection_stays_valid_witness :
  exists m, currentMarket (this switched) = Some m /\ In m mk0.
Proof.
  apply (selection_stays_valid cfg0 ex0 mk0 [cold_ok; Tick 1; RowSelect 1]).
  - discriminate.
  - discriminate.
  - intros p H. discriminate H.
  - constructor; [|repeat constructor].
    cbn. unfold named_after, prices0.
    constructor; [cbn; auto|]. constructor; [cbn; auto|]. constructor.
Defined.

(** C6, as stated, fails: nothing checks the default period against the
    periods, the selected market is read from the fetched entry and not
    from the list of markets, and an empty list of markets or of periods
    leaves [currentMarket] or [currentPeriod] undefined. *)
Lemma selection_can_leave_lists :
  (let a := run (constructor cfg0 ex_odd mk0) [cold_ok; RowSelect 1] in
   currentPeriod (this a) = Some "5m" /\
   ~ In "5m" (Exchange.periods ex_odd)) /\
  (let a := run (constructor cfg0 ex0 mk0)
              [InitSettled false (Resolved prices_pairs) (Resolved btc_1h) 1000%N;
               RowSelect 1] in
   currentMarket (this a) = Some "ETH_USD" /\
   ~ In "ETH_USD" mk0) /\
  currentMarket (this (run (constructor cfg0 ex0 []) [KeyPeriod 2])) = None /\
  currentPeriod (this (run (constructor cfg0 ex_bare mk0) [RowSelect 0])) = None.
Proof.
  cbn. repeat split.
  - intros [H|[H|[]]]; discriminate H.
  - intros [H|[H|[]]]; discriminate H.
Qed.

(** * Further properties *)

(** ** What stays the same from event to event *)

Ltac open_handlers :=
  unfold on_quit, on_help_key, show_help_of, on_period, on_select, on_tick,
    timerFn, on_resize, throttle, initDashBoard, initDashBoard_from, unhandled,
    init_settled, price_settled, trend_settled, fetchAll_settled, promise_all,
    errorHandler, updateLine,
    updateTable, updateCurrentPrice, updatePriceTrend, toggleHelp, drawHelp,
    init, fetchAll, logError, logMsg, hideLog, call, acknowledge, andThen in *.

Ltac case_step :=
  match goal with
  | |- context [match ?x with _ => _ end] =>
      lazymatch x with
      | context [match _ with _ => _ end] => fail
      | _ => destruct x eqn:?
      end
  end.

Ltac crush := open_handlers; cbn; repeat (case_step; cbn).

Lemma same_view_refl a : same_view a a.
Proof. split; reflexivity. Qed.

Lemma same_view_trans a b c : same_view a b -> same_view b c -> same_view a c.
Proof. intros [] []. split; congruence. Qed.

Lemma same_view_acknowledge cb a : same_view a (acknowledge cb a).
Proof. destruct cb as [[]|]; split; reflexivity. Qed.

Lemma same_view_on_enter a : same_view a (on_enter a).
Proof.
  rewrite on_enter_eq.
  apply (acknowledge_all_ind (same_view a)).
  - intros cb b Hb. eapply same_view_trans; [exact Hb|apply same_view_acknowledge].
  - split; reflexivity.
Qed.

Lemma same_view_quiet_events ev a :
  timer (this a) = None ->
  match ev with
  | KeyQuit | KeyHelp | KeyEnter | KeyPeriod _ | RowSelect _ | Tick _ => True
  | _ => False
  end ->
  same_view a (handle_event ev a).
Proof.
  intros Ht Hev.
  destruct ev as [| | |ch|idx|h| |sf p t now|r now|r]; try contradiction;
    cbn [handle_event].
  - unfold on_quit. rewrite Ht. crush; split; reflexivity.
  - crush; split; reflexivity.
  - apply same_view_on_enter.
  - crush; split; reflexivity.
  - crush; split; reflexivity.
  - crush; split; reflexivity.
Qed.

Lemma drawn_same_view a b : same_view a b -> drawn a -> drawn b.
Proof.
  intros [] (Ht & Hl & Hm). unfold drawn.
  rewrite sv_table0, sv_line0, sv_config0, sv_data0, sv_lastUpdate0. auto.
Qed.

Lemma shape_same_view cfg ex ms a b :
  same_view a b -> shape cfg ex ms a -> shape cfg ex ms b.
Proof.
  intros Hv Ha. pose proof (drawn_same_view a b Hv) as Hd.
  destruct Hv, Ha. split; try congruence.
  - rewrite sv_running0. intros H. destruct (shape_data0 H) as (es & d & H1 & H2).
    exists es, d. rewrite sv_data0. auto.
  - rewrite sv_running0. auto.
Qed.

Lemma shape_resize cfg ex ms a : shape cfg ex ms a -> shape cfg ex ms (on_resize a).
Proof.
  intros [Hc He Hm Ht Htr Hi Hk Hh Hd Hdr].
  destruct (running (this a)) eqn:Hrun.
  - destruct (Hd eq_refl) as (es & d & Hes & Htd).
    open_handlers. cbn. rewrite Hrun. cbn. rewrite Hrun, Htd. cbn.
    split; cbn; try assumption; try congruence.
    + intros _. exists es, d. auto.
    + intros _. unfold drawn. cbn. rewrite Htd. repeat split.
      intros d' [= <-]. eauto.
  - open_handlers. cbn. rewrite Hrun. cbn. rewrite Hrun. cbn.
    split; cbn; try assumption; try congruence.
Qed.

Lemma shape_init_settled cfg ex ms sf p t now a :
  shape cfg ex ms a ->
  shape cfg ex ms (init_settled (fetchAll_settled sf p t) now a).
Proof.
  intros Ha.
  destruct p as [res0|e1], t as [res1|e2]; cbn [fetchAll_settled promise_all].
  - destruct Ha. open_handlers. cbn.
    split; cbn; try assumption.
    + intros _. exists res0, res1. auto.
    + intros _. unfold drawn. cbn. repeat split. intros d' [= <-]. eauto.
  - apply (shape_same_view _ _ _ a); [|exact Ha]. crush; split; reflexivity.
  - apply (shape_same_view _ _ _ a); [|exact Ha]. crush; split; reflexivity.
  - apply (shape_same_view _ _ _ a); [|exact Ha]. crush; split; reflexivity.
Qed.

Lemma shape_price_settled cfg ex ms r now a :
  shape cfg ex ms a -> shape cfg ex ms (price_settled r now a).
Proof.
  intros Ha. destruct r as [res|err].
  - destruct Ha as [Hc He Hm Ht Htr Hi Hk Hh Hd Hdr].
    destruct (running (this a)) eqn:Hrun.
    + destruct (Hd eq_refl) as (es & d & Hes & Htd).
      destruct (Hdr eq_refl) as (_ & Hl & Hlab).
      open_handlers. cbn. rewrite Hrun. cbn.
      split; cbn; try assumption; try congruence.
      * intros _. exists res, d. cbn. auto.
      * intros _. unfold drawn. cbn. auto.
    + open_handlers. cbn. rewrite Hrun. cbn.
      split; cbn; try assumption; try congruence.
  - apply (shape_same_view _ _ _ a); [|exact Ha]. crush; split; reflexivity.
Qed.

Lemma shape_trend_settled cfg ex ms r a :
  shape cfg ex ms a -> shape cfg ex ms (trend_settled r a).
Proof.
  intros Ha. destruct r as [d|err].
  - destruct Ha as [Hc He Hm Ht Htr Hi Hk Hh Hd Hdr].
    destruct (running (this a)) eqn:Hrun.
    + destruct (Hd eq_refl) as (es & d0 & Hes & Htd).
      destruct (Hdr eq_refl) as (Htab & _ & _).
      open_handlers. cbn. rewrite Hrun. cbn.
      split; cbn; try assumption; try congruence.
      * intros _. exists es, d. cbn. auto.
      * intros _. unfold drawn. cbn. repeat split; [exact Htab|].
        intros d' [= <-]. eauto.
    + open_handlers. cbn. rewrite Hrun. cbn.
      split; cbn; try assumption; try congruence.
  - apply (shape_same_view _ _ _ a); [|exact Ha]. crush; split; reflexivity.
Qed.

Lemma shape_handle_event cfg ex ms ev a :
  shape cfg ex ms a -> shape cfg ex ms (handle_event ev a).
Proof.
  intros Ha.
  destruct ev as [| | |ch|idx|h| |sf p t now|r now|r];
    try (apply (shape_same_view _ _ _ a); [|exact Ha];
         apply same_view_quiet_events; [apply Ha|exact I]);
    cbn [handle_event].
  - apply shape_resize, Ha.
  - apply shape_init_settled, Ha.
  - apply shape_price_settled, Ha.
  - apply shape_trend_settled, Ha.
Qed.

Lemma shape_step cfg ex ms a ev : shape cfg ex ms a -> shape cfg ex ms (step a ev).
Proof.
  intros Ha. unfold step. destruct (exited (world a)); [exact Ha|].
  apply shape_handle_event, Ha.
Qed.

Lemma shape_constructor cfg ex ms : shape cfg ex ms (constructor cfg ex ms).
Proof. split; try reflexivity; cbn; discriminate. Qed.

Lemma shape_reachable cfg ex ms a : reachable cfg ex ms a -> shape cfg ex ms a.
Proof.
  intros [evs ->]. generalize (shape_constructor cfg ex ms).
  generalize (constructor cfg ex ms) as a. 
  induction evs as [|ev evs IH]; intros a Ha; cbn; [exact Ha|].
  apply IH, shape_step, Ha.
Qed.

(** ** Construction *)

(** X1. What the constructor leaves behind, whatever its arguments: the
    two cold-start requests, the two timers with the configured delays
    in milliseconds, a log box showing and error and help boxes hidden,
    an empty table and chart, and a live process. *)
Theorem constructor_initial_state cfg ex ms :
  let a := constructor cfg ex ms in
  requests (world a)
  = [GetCurrentPrice ex ms;
     GetPriceTrend ex (ms !! 0) (currentPeriod (this a))] /\
  intervals (world a) = interval_list cfg /\
  timers (this a) = Some {| price_timer := 0; trend_timer := 1 |} /\
  log (dash a) = {| hidden := false; content := FetchingInitial |} /\
  error (dash a) = {| hidden := true; content := NoContent |} /\
  help (dash a)
  = {| hidden := true; content := HelpText (Exchange.periods ex) |} /\
  table_data (table (dash a)) = None /\
  line_data (line (dash a)) = None /\
  enterOnce (world a) = [] /\
  focused (world a) = None /\
  exited (world a) = None.
Proof. cbn. repeat split. Qed.

(** ** Timers *)

(** X2. No event starts, replaces or cancels a timer: in every state the
    instance can reach, the live intervals are the two of
    [eventListeners], and [this.timers] holds their handles. *)
Theorem timers_stay_registered cfg ex ms a :
  reachable cfg ex ms a ->
  intervals (world a) = interval_list cfg /\
  timers (this a) = Some {| price_timer := 0; trend_timer := 1 |}.
Proof. intros H. apply shape_reachable in H. split; apply H. Qed.

Lemma timers_stay_registered_witness :
  intervals (world failed) = interval_list cfg0.
Proof.
  apply (timers_stay_registered cfg0 ex0 mk0 failed). eexists. reflexivity.
Defined.

(** X3. On a running dashboard the first timer requests the prices of
    all markets and the second the trend of the current market and
    period, each announcing itself in the log box; no other handle
    fires anything. *)
Theorem tick_issues_fetch cfg ex ms a :
  reachable cfg ex ms a ->
  exited (world a) = None ->
  running (this a) = true ->
  (let b := step a (Tick 0) in
   requests (world b) = requests (world a) ++ [GetCurrentPrice ex ms] /\
   log (dash b) = {| hidden := false; content := FetchingPrices |} /\
   this b = this a) /\
  (let b := step a (Tick 1) in
   requests (world b)
   = requests (world a)
     ++ [GetPriceTrend ex (currentMarket (this a)) (currentPeriod (this a))] /\
   log (dash b)
   = {| hidden := false;
        content := FetchingTrend (currentMarket (this a))
                                 (currentPeriod (this a)) |} /\
   this b = this a) /\
  (forall h, 2 <= h -> step a (Tick h) = a).
Proof.
  intros Hr Hex Hrun. apply shape_reachable in Hr.
  destruct Hr as [Hc He Hm _ _ Hi _ _ _ _].
  unfold step. rewrite Hex. cbn [handle_event]. unfold on_tick. rewrite Hi.
  split; [|split].
  - cbn. unfold updateCurrentPrice. rewrite Hrun, He, Hm. cbn. auto.
  - cbn. unfold updatePriceTrend. rewrite Hrun, He. cbn. auto.
  - intros h Hh. destruct h as [|[|h]]; [lia|lia|]. reflexivity.
Qed.

Lemma tick_issues_fetch_witness :
  requests (world (step started (Tick 0)))
  = requests (world started) ++ [GetCurrentPrice ex0 mk0].
Proof.
  destruct (tick_issues_fetch cfg0 ex0 mk0 started) as ((H & _) & _).
  - eexists. reflexivity.
  - reflexivity.
  - reflexivity.
  - exact H.
Defined.

(** X4. Until the cold start has succeeded, a timer tick and a row
    selection change nothing at all. *)
Theorem idle_before_running a h idx :
  running (this a) = false ->
  step a (Tick h) = a /\ step a (RowSelect idx) = a.
Proof.
  intros Hrun. unfold step. destruct (exited (world a)); [auto|].
  cbn [handle_event]. unfold on_tick, on_select. rewrite Hrun. cbn.
  split; [|reflexivity].
  destruct (find _ _) as [[? [] ?]|]; cbn; [| |reflexivity];
    unfold updateCurrentPrice, updatePriceTrend; rewrite Hrun; reflexivity.
Qed.

Lemma idle_before_running_witness :
  step (constructor cfg0 ex0 mk0) (Tick 0) = constructor cfg0 ex0 mk0.
Proof.
  destruct (idle_before_running (constructor cfg0 ex0 mk0) 0 0) as [H _];
    [reflexivity|exact H].
Defined.

(** ** Requests *)

Lemma requests_handle_event ev a :
  exists l,
    requests (world (handle_event ev a)) = requests (world a) ++ l /\
    (l <> [] ->
     match ev with
     | Tick _ | KeyPeriod _ | RowSelect _ | KeyEnter => True
     | _ => False
     end).
Proof.
  assert (Hnil : forall (r : list ApiCall) (P : Prop),
            r = requests (world a) ->
            exists l, r = requests (world a) ++ l /\ (l <> [] -> P)).
  { intros r P Hr. exists []. rewrite app_nil_r. split; [exact Hr|congruence]. }
  assert (Hsome : forall (r l : list ApiCall),
            r = requests (world a) ++ l ->
            exists l, r = requests (world a) ++ l /\ (l <> [] -> True)).
  { intros r l Hr. exists l. auto. }
  destruct ev as [| | |ch|idx|h| |sf p t now|r now|r]; cbn [handle_event];
    try (apply Hnil; crush; reflexivity).
  - rewrite on_enter_eq.
    destruct (acknowledge_all_effect (served (enterOnce (world a)))
                (on_world (set_enterOnce (skipped (enterOnce (world a)))) a))
      as (_ & _ & _ & _ & _ & _ & H).
    eapply Hsome. exact H.
  - destruct (period_bound ch a); [|apply Hnil; reflexivity].
    unfold on_period, updatePriceTrend, andThen. cbn.
    destruct (running (this a)); cbn;
      [eapply Hsome; reflexivity|apply Hnil; reflexivity].
  - unfold on_select, updatePriceTrend, andThen.
    destruct (running (this a)) eqn:Hrun; cbn; [|apply Hnil; reflexivity].
    destruct (_ ≫= _); cbn; [|apply Hnil; reflexivity].
    rewrite Hrun. cbn. eapply Hsome. reflexivity.
  - unfold on_tick.
    destruct (find _ _) as [[? [] ?]|]; cbn; [| |apply Hnil; reflexivity];
      unfold updateCurrentPrice, updatePriceTrend;
      (destruct (running (this a)); cbn;
       [eapply Hsome; reflexivity|apply Hnil; reflexivity]).
Qed.

(** X5. The list of requests only grows, and it grows only on a timer
    tick, a period key, a row selection or the [enter] key: neither a
    result nor a failure, nor the quit and help keys, nor a resize ever
    sends a request, so a failed fetch is never repeated by itself. *)
Theorem requests_issued_only_by a ev :
  exists l,
    requests (world (step a ev)) = requests (world a) ++ l /\
    (l <> [] ->
     (exists h, ev = Tick h) \/ (exists ch, ev = KeyPeriod ch) \/
     (exists idx, ev = RowSelect idx) \/ ev = KeyEnter).
Proof.
  unfold step. destruct (exited (world a)).
  - exists []. rewrite app_nil_r. split; [reflexivity|congruence].
  - destruct (requests_handle_event ev a) as (l & Hl & Hev).
    exists l. split; [exact Hl|]. intros Hne. specialize (Hev Hne).
    destruct ev; try contradiction; eauto 6.
Qed.

Lemma requests_issued_only_by_witness :
  requests (world (step started (TrendSettled (Rejected http500))))
  = requests (world started).
Proof.
  destruct (requests_issued_only_by started (TrendSettled (Rejected http500)))
    as (l & Hl & Hev).
  destruct l as [|c l].
  - rewrite app_nil_r in Hl. exact Hl.
  - exfalso. destruct Hev as [[h H]|[[ch H]|[[idx H]|H]]];
      [discriminate|discriminate H|discriminate H|discriminate H|discriminate H].
Defined.

(** ** Data and what is drawn *)

(** X7. A running dashboard has both the prices and a trend: [running]
    is never true with [this.data.currentPrice] or
    [this.data.priceTrend] undefined. *)
Theorem running_has_data cfg ex ms a :
  reachable cfg ex ms a ->
  running (this a) = true ->
  exists es d,
    currentPrice (data (this a)) = Some es /\
    priceTrend (data (this a)) = Some d.
Proof. intros H Hrun. apply shape_reachable in H. apply H, Hrun. Qed.

Lemma running_has_data_witness :
  exists es d,
    currentPrice (data (this switched)) = Some es /\
    priceTrend (data (this switched)) = Some d.
Proof.
  apply (running_has_data cfg0 ex0 mk0 switched).
  - eexists. reflexivity.
  - reflexivity.
Defined.

(** X8. On a running dashboard the table always shows the stored price
    entries under the time of their last update, and the chart the
    stored trend series, titled with the market that series names. *)
Theorem screen_shows_stored_data cfg ex ms a :
  reachable cfg ex ms a ->
  running (this a) = true ->
  table (dash a)
  = {| table_data :=
         Some {| headers := tableHeaders cfg;
                 entries := currentPrice (data (this a)) |};
       table_label := TableUpdated (lastUpdate (this a)) |} /\
  line_data (line (dash a)) = priceTrend (data (this a)) /\
  exists d p,
    priceTrend (data (this a)) = Some d /\
    line_label (line (dash a)) = LineTrend (Trend.currentMarket d) p.
Proof.
  intros H Hrun. apply shape_reachable in H.
  destruct H as [Hc _ _ _ _ _ _ _ Hd Hdr].
  destruct (Hdr Hrun) as (Ht & Hl & Hm). destruct (Hd Hrun) as (es & d & _ & Hp).
  rewrite <- Hc. split; [exact Ht|]. split; [exact Hl|].
  rewrite Hp in Hl. destruct (Hm d Hl) as [p Hlab]. eauto.
Qed.

Lemma screen_shows_stored_data_witness :
  line_data (line (dash overwritten)) = priceTrend (data (this overwritten)).
Proof.
  destruct (screen_shows_stored_data cfg0 ex0 mk0 overwritten) as (_ & H & _).
  - eexists. reflexivity.
  - reflexivity.
  - exact H.
Defined.

(** ** Resize *)

(** X6. A resize builds a new dashboard from the state as it is: no
    field of [this] changes, nothing is requested, timers and pending
    acknowledgements stay, and the process goes on.  The widgets in use
    so far are left on the screen; the new log, error and help boxes
    start hidden, and a running dashboard is drawn at once. *)
Theorem resize_rebuilds_from_state cfg ex ms a :
  reachable cfg ex ms a ->
  exited (world a) = None ->
  let b := step a Resize in
  this b = this a /\
  requests (world b) = requests (world a) /\
  intervals (world b) = intervals (world a) /\
  enterOnce (world b) = enterOnce (world a) /\
  exited (world b) = None /\
  orphans (world b) = orphans (world a) ++ [dash a] /\
  log (dash b) = {| hidden := true; content := NoContent |} /\
  error (dash b) = {| hidden := true; content := NoContent |} /\
  help (dash b)
  = {| hidden := true; content := HelpText (Exchange.periods ex) |} /\
  (running (this a) = true ->
   table (dash b) = table (dash a) /\
   line_data (line (dash b)) = line_data (line (dash a)) /\
   focused (world b) = Some (FocusTable (S (generation a)))).
Proof.
  intros Hr Hex. apply shape_reachable in Hr.
  destruct Hr as [Hc He Hm _ _ _ _ _ Hd Hdr].
  cbn zeta. unfold step. rewrite Hex. cbn [handle_event].
  destruct (running (this a)) eqn:Hrun.
  - destruct (Hd eq_refl) as (es & d & Hes & Htd).
    destruct (Hdr eq_refl) as (Ht & Hl & _).
    open_handlers. cbn. rewrite Hrun. cbn. rewrite Hrun, Htd. cbn.
    rewrite He, Ht, Hl, Htd. unfold generation. rewrite length_app. cbn.
    replace (length (orphans (world a)) + 1) with (S (length (orphans (world a))))
      by lia.
    repeat split; auto.
  - open_handlers. cbn. rewrite Hrun. cbn. rewrite Hrun. cbn. rewrite He.
    repeat split; auto; discriminate.
Qed.

Lemma resize_rebuilds_from_state_witness :
  requests (world (step failed Resize)) = requests (world failed) /\
  orphans (world (step failed Resize)) = [dash failed].
Proof.
  destruct (resize_rebuilds_from_state cfg0 ex0 mk0 failed)
    as (_ & H1 & _ & _ & _ & H2 & _).
  - eexists. reflexivity.
  - reflexivity.
  - split; [exact H1|exact H2].
Defined.

(** ** How the process ends *)

Lemma exited_handle_event ev a :
  let x := exited (world (handle_event ev a)) in
  x = exited (world a) \/
  (x = Some (ProcessExit 0) /\ ev = KeyQuit /\ visible (help (dash a)) = false) \/
  (x = Some (ProcessExit 1) /\
   exists err, failure_of ev = Some err /\ isHttpError err = false) \/
  (x = Some UncaughtTypeError /\ running (this a) = true /\
   ((exists idx, ev = RowSelect idx /\
       currentPrice (data (this a)) ≫= (fun es => es !! idx) = None) \/
    (ev = Resize /\ priceTrend (data (this a)) = None))).
Proof.
  cbn zeta.
  destruct ev as [| | |ch|idx|h| |sf p t now|r now|r]; cbn [handle_event].
  - unfold on_quit. destruct (visible (help (dash a))) eqn:Hv.
    + left. unfold toggleHelp. rewrite Hv. reflexivity.
    + right. left. destruct (timer (this a)); cbn; auto.
  - left. crush; reflexivity.
  - left. rewrite on_enter_eq.
    destruct (acknowledge_all_effect (served (enterOnce (world a)))
                (on_world (set_enterOnce (skipped (enterOnce (world a)))) a))
      as (_ & _ & _ & H & _).
    exact H.
  - left. crush; reflexivity.
  - unfold on_select. destruct (running (this a)) eqn:Hrun; cbn; [|auto].
    destruct (_ ≫= _) eqn:El.
    + left. unfold andThen, updatePriceTrend. cbn. rewrite Hrun. reflexivity.
    + right. right. right. cbn. eauto 8.
  - left. crush; reflexivity.
  - unfold on_resize, throttle, initDashBoard, initDashBoard_from, updateLine,
      updateTable, drawHelp, andThen. cbn.
    destruct (running (this a)) eqn:Hrun; cbn; rewrite ?Hrun; cbn; [|auto].
    destruct (priceTrend (data (this a))) eqn:Ep; cbn; [auto|].
    right. right. right. auto.
  - destruct p as [res0|e1], t as [res1|e2]; cbn [fetchAll_settled promise_all failure_of].
    + left. crush; reflexivity.
    + unfold init_settled, andThen, errorHandler.
      destruct (isHttpError e2) eqn:E; [left; reflexivity|].
      right. right. left. cbn. eauto.
    + unfold init_settled, andThen, errorHandler.
      destruct (isHttpError e1) eqn:E; [left; reflexivity|].
      right. right. left. cbn. eauto.
    + unfold init_settled, andThen, errorHandler.
      destruct (isHttpError (if sf then e2 else e1)) eqn:E; [left; reflexivity|].
      right. right. left. cbn. eauto.
  - destruct r as [res|err]; cbn [price_settled failure_of].
    + left. crush; reflexivity.
    + unfold errorHandler.
      destruct (isHttpError err) eqn:E; [left; reflexivity|].
      right. right. left. cbn. eauto.
  - destruct r as [d|err]; cbn [failure_of].
    + left. crush; reflexivity.
    + unfold trend_settled, errorHandler.
      destruct (isHttpError err) eqn:E; [left; reflexivity|].
      right. right. left. cbn. eauto.
Qed.

(** X11. How a constructed instance ends.  With status 0: only by the
    quit key pressed with the help box of [this.help] hidden.  With
    status 1: by [process.exit(1)], only after a request rejected with
    an error that has no response carrying its request; or by an
    uncaught [TypeError], only from a row selection on a running
    dashboard whose index has no price entry.  There is no other
    ending. *)
Theorem exit_codes cfg ex ms a ev t :
  reachable cfg ex ms a ->
  exited (world a) = None ->
  exited (world (step a ev)) = Some t ->
  (exit_status t = 0 /\ t = ProcessExit 0 /\
   ev = KeyQuit /\ visible (help (dash a)) = false) \/
  (exit_status t = 1 /\
   ((t = ProcessExit 1 /\
     exists err, rejection_of ev = Some err /\ isHttpError err = false) \/
    (t = UncaughtTypeError /\
     exists idx es,
       ev = RowSelect idx /\ running (this a) = true /\
       currentPrice (data (this a)) = Some es /\ length es <= idx))).
Proof.
  intros Hr Hex H. apply shape_reachable in Hr. unfold step in H.
  rewrite Hex in H.
  destruct (exited_handle_event ev a)
    as [E|[(E & ? & ?)|[(E & err & Hf & Hh)
                        |(E & Hrun & [(idx & -> & Hl)|(-> & Hp)])]]];
    cbn zeta in E; rewrite E in H.
  - congruence.
  - injection H as <-. left. auto.
  - injection H as <-. right. split; [reflexivity|]. left.
    split; [reflexivity|]. exists err. rewrite <- failure_of_rejection. auto.
  - injection H as <-. right. split; [reflexivity|]. right.
    split; [reflexivity|].
    destruct (shape_data _ _ _ _ Hr Hrun) as (es & d & Hes & _).
    exists idx, es. rewrite Hes in Hl. cbn in Hl.
    apply lookup_ge_None in Hl. auto.
  - destruct (shape_data _ _ _ _ Hr Hrun) as (es & d & _ & Hd). congruence.
Qed.

Lemma exit_codes_witness :
  (exit_status UncaughtTypeError = 0 /\ UncaughtTypeError = ProcessExit 0 /\
   RowSelect 2 = KeyQuit /\ visible (help (dash started)) = false) \/
  (exit_status UncaughtTypeError = 1 /\
   ((UncaughtTypeError = ProcessExit 1 /\
     exists err, rejection_of (RowSelect 2) = Some err /\
                 isHttpError err = false) \/
    (UncaughtTypeError = UncaughtTypeError /\
     exists idx es,
       RowSelect 2 = RowSelect idx /\ running (this started) = true /\
       currentPrice (data (this started)) = Some es /\ length es <= idx))).
Proof.
  apply (exit_codes cfg0 ex0 mk0 started (RowSelect 2) UncaughtTypeError).
  - eexists. reflexivity.
  - reflexivity.
  - reflexivity.
Defined.

(** X9. An uncaught exception can come from one place only: a row
    selection, on a running dashboard, whose index has no price entry.
    In particular a resize never brings the process down. *)
Theorem uncaught_only_from_selection cfg ex ms a ev :
  reachable cfg ex ms a ->
  exited (world a) = None ->
  exited (world (step a ev)) = Some UncaughtTypeError ->
  exists idx es,
    ev = RowSelect idx /\ running (this a) = true /\
    currentPrice (data (this a)) = Some es /\ length es <= idx.
Proof.
  intros Hr Hex H. apply shape_reachable in Hr. unfold step in H.
  rewrite Hex in H.
  destruct (exited_handle_event ev a)
    as [E|[(E & _)|[(E & _)|(E & Hrun & [(idx & -> & Hl)|(-> & Hp)])]]];
    cbn zeta in E; rewrite E in H; try congruence.
  - destruct (shape_data _ _ _ _ Hr Hrun) as (es & d & Hes & _).
    exists idx, es. rewrite Hes in Hl. cbn in Hl.
    apply lookup_ge_None in Hl. auto.
  - destruct (shape_data _ _ _ _ Hr Hrun) as (es & d & _ & Hd). congruence.
Qed.

Lemma uncaught_only_from_selection_witness :
  exists idx es,
    RowSelect 2 = RowSelect idx /\ running (this started) = true /\
    currentPrice (data (this started)) = Some es /\ length es <= idx.
Proof.
  apply (uncaught_only_from_selection cfg0 ex0 mk0 started (RowSelect 2)).
  - eexists. reflexivity.
  - reflexivity.
  - reflexivity.
Defined.

(** X10. A row selection on a running dashboard: an index within the
    price entries makes that entry's name the current market and
    requests its trend for the current period at once; an index beyond
    them ends the process with an uncaught [TypeError], nothing
    selected and nothing requested. *)
Theorem row_select_bounds a idx es :
  exited (world a) = None ->
  running (this a) = true ->
  currentPrice (data (this a)) = Some es ->
  let b := step a (RowSelect idx) in
  (forall e, es !! idx = Some e ->
     currentMarket (this b) = Some (PriceEntry.name e) /\
     requests (world b)
     = requests (world a)
       ++ [GetPriceTrend (exchange (this a)) (Some (PriceEntry.name e))
                         (currentPeriod (this a))] /\
     exited (world b) = None) /\
  (length es <= idx ->
     exited (world b) = Some UncaughtTypeError /\
     this b = this a /\
     requests (world b) = requests (world a)).
Proof.
  intros Hex Hrun Hes. cbn zeta. unfold step. rewrite Hex. cbn [handle_event].
  unfold on_select. rewrite Hrun, Hes. cbn. split.
  - intros e He. rewrite He. unfold andThen, updatePriceTrend. cbn.
    rewrite Hrun. cbn. auto.
  - intros Hle. apply lookup_ge_None in Hle. rewrite Hle. cbn. auto.
Qed.

Lemma row_select_bounds_witness :
  exited (world (step started (RowSelect 2))) = Some UncaughtTypeError /\
  this (step started (RowSelect 2)) = this started /\
  requests (world (step started (RowSelect 2))) = requests (world started).
Proof.
  destruct (row_select_bounds started 2 prices0) as [_ H]; try reflexivity.
  apply H. cbn. lia.
Defined.

(** ** The log box *)

(** X12. Every result hides the log box, and so does a cold start that
    fails; but a price or trend fetch that fails leaves the log box as
    it is, still announcing the fetch. *)
Theorem log_box_after_settling a :
  exited (world a) = None ->
  (forall sf p t now,
     hidden (log (dash (step a (InitSettled sf p t now)))) = true) /\
  (forall res now,
     hidden (log (dash (step a (PriceSettled (Resolved res) now)))) = true) /\
  (forall d,
     hidden (log (dash (step a (TrendSettled (Resolved d))))) = true) /\
  (forall err now,
     log (dash (step a (PriceSettled (Rejected err) now))) = log (dash a)) /\
  (forall err,
     log (dash (step a (TrendSettled (Rejected err)))) = log (dash a)).
Proof.
  intros Hex. unfold step. rewrite Hex. cbn [handle_event].
  split; [|split; [|split; [|split]]].
  - intros sf p t now. destruct p, t; crush; reflexivity.
  - intros res now. crush; reflexivity.
  - intros d. crush; reflexivity.
  - intros err now. crush; reflexivity.
  - intros err. crush; reflexivity.
Qed.

Lemma log_box_after_settling_witness :
  log (dash (step fetching (TrendSettled (Rejected http500))))
  = log (dash fetching).
Proof.
  destruct (log_box_after_settling fetching) as (_ & _ & _ & _ & H).
  - reflexivity.
  - apply H.
Defined.

(** X13. A price result on a running dashboard gives the focus to the
    table, whatever had it; an error box that is showing stays as it is,
    its acknowledgement still pending. *)
Theorem price_result_takes_focus a res now :
  exited (world a) = None ->
  running (this a) = true ->
  let b := step a (PriceSettled (Resolved res) now) in
  focused (world b) = Some (FocusTable (generation a)) /\
  error (dash b) = error (dash a) /\
  enterOnce (world b) = enterOnce (world a).
Proof.
  intros Hex Hrun. cbn zeta. unfold step. rewrite Hex. cbn [handle_event].
  open_handlers. cbn. rewrite Hrun. cbn. auto.
Qed.

Lemma price_result_takes_focus_witness :
  focused (world (step failed (PriceSettled (Resolved prices0) 2000%N)))
  = Some (FocusTable (generation failed)) /\
  error (dash (step failed (PriceSettled (Resolved prices0) 2000%N)))
  = error (dash failed).
Proof.
  destruct (price_result_takes_focus failed prices0 2000%N) as (H1 & H2 & _);
    try reflexivity.
  split; [exact H1|exact H2].
Defined.

(** ** The help box *)

(** X14. The [?] key always acts on the help box of the first dashboard.
    Before any resize that is [this.help], which becomes visible; after
    one, the box of the replaced dashboard is shown and [this.help],
    like every widget in use, is untouched.  Either way nothing is
    rendered by the key itself. *)
Theorem help_key_shows_first_dashboard cfg ex ms a :
  reachable cfg ex ms a ->
  exited (world a) = None ->
  let b := step a KeyHelp in
  frames (world b) = frames (world a) /\
  this b = this a /\
  (generation a = 0 ->
   help (dash b) = show (help (dash a)) /\ orphans (world b) = []) /\
  (0 < generation a ->
   dash b = dash a /\
   exists d, orphans (world a) !! 0 = Some d /\
             orphans (world b) !! 0 = Some (set_help (show (help d)) d)).
Proof.
  intros Hr Hex. apply shape_reachable in Hr.
  destruct Hr as [_ _ _ _ _ _ Hk _ _ _].
  cbn zeta. unfold step. rewrite Hex. cbn [handle_event].
  unfold on_help_key, show_help_of, generation. rewrite Hk.
  destruct (orphans (world a)) as [|d ds] eqn:Eo; cbn.
  - rewrite Eo. repeat split; auto; lia.
  - split; [reflexivity|]. split; [reflexivity|].
    split; [intros H; discriminate H|].
    intros _. split; [reflexivity|]. exists d. rewrite Eo. split; reflexivity.
Qed.

Lemma help_key_shows_first_dashboard_witness :
  dash (step resized KeyHelp) = dash resized.
Proof.
  destruct (help_key_shows_first_dashboard cfg0 ex0 mk0 resized)
    as (_ & _ & _ & H).
  - eexists. reflexivity.
  - reflexivity.
  - apply H. cbn. lia.
Defined.

(** X18. The help box in use always lists the exchange's periods. *)
Theorem help_lists_periods cfg ex ms a :
  reachable cfg ex ms a ->
  content (help (dash a)) = HelpText (Exchange.periods ex).
Proof. intros H. apply shape_reachable in H. apply H. Qed.

Lemma help_lists_periods_witness :
  content (help (dash helped)) = HelpText (Exchange.periods ex0).
Proof. apply (help_lists_periods cfg0 ex0 mk0 helped). eexists. reflexivity. Defined.

(** ** Replaced widgets *)

Lemma orphans_handle_event ev a :
  let o := orphans (world (handle_event ev a)) in
  o = orphans (world a) \/
  (exists g, o = alter (fun d => set_help (show (help d)) d) g (orphans (world a))) \/
  o = orphans (world a) ++ [dash a].
Proof.
  cbn zeta.
  destruct ev as [| | |ch|idx|h| |sf p t now|r now|r]; cbn [handle_event];
    try (left; crush; reflexivity).
  - unfold on_help_key, show_help_of.
    destruct (helpKey (world a)) as [g|]; [|left; reflexivity].
    destruct (Nat.eqb g (generation a)); [left; reflexivity|].
    right. left. exists g. reflexivity.
  - left. rewrite on_enter_eq.
    apply (acknowledge_all_ind
             (fun b => orphans (world b) = orphans (world a))); [|reflexivity].
    intros cb b <-. destruct cb as [[]|]; reflexivity.
  - right. right. crush; reflexivity.
Qed.

(** X15. The widgets of a replaced dashboard stay on the screen as they
    were when the resize came: no later event updates, hides or removes
    its table, chart, log box or error box (an error box showing then
    shows for good); only its help box can still be made visible. *)
Theorem orphans_frozen a ev i d :
  orphans (world a) !! i = Some d ->
  exists d',
    orphans (world (step a ev)) !! i = Some d' /\
    table d' = table d /\ line d' = line d /\
    log d' = log d /\ error d' = error d /\
    content (help d') = content (help d) /\
    (visible (help d) = true -> visible (help d') = true).
Proof.
  intros Hd. unfold step. destruct (exited (world a)); [exists d; auto 10|].
  destruct (orphans_handle_event ev a) as [E|[[g E]|E]]; cbn zeta in E;
    rewrite E.
  - exists d. auto 10.
  - destruct (decide (g = i)) as [->|Hne].
    + exists (set_help (show (help d)) d).
      rewrite list_lookup_alter_eq, Hd. cbn. auto 10.
    + exists d. rewrite list_lookup_alter_ne by assumption. auto 10.
  - exists d. rewrite lookup_app_l by (eapply lookup_lt_Some; eassumption).
    auto 10.
Qed.

Lemma orphans_frozen_witness :
  exists d',
    orphans (world (step (step failed Resize) KeyEnter)) !! 0 = Some d' /\
    table d' = table (dash failed) /\ line d' = line (dash failed) /\
    log d' = log (dash failed) /\ error d' = error (dash failed) /\
    content (help d') = content (help (dash failed)) /\
    (visible (help (dash failed)) = true -> visible (help d') = true).
Proof.
  apply (orphans_frozen (step failed Resize) KeyEnter 0 (dash failed)).
  reflexivity.
Defined.

(** ** The cold start *)

(** X16. The cold start is all or nothing: unless both the prices and
    the trend arrive, no field of [this] changes - prices that did
    arrive are dropped - and what is reported is the failure of the
    fetch that failed, or of the one that failed first. *)
Theorem cold_start_all_or_nothing a sf p t now :
  exited (world a) = None ->
  let b := step a (InitSettled sf p t now) in
  (exists res0 res1,
     p = Resolved res0 /\ t = Resolved res1 /\
     running (this b) = true /\
     data (this b) = {| currentPrice := Some res0; priceTrend := Some res1 |} /\
     lastUpdate (this b) = Some now) \/
  (this b = this a /\
   exists err,
     failure_of (InitSettled sf p t now) = Some err /\
     match p, t with
     | Rejected e1, Rejected e2 => err = if sf then e2 else e1
     | Rejected e1, _ => err = e1
     | _, Rejected e2 => err = e2
     | _, _ => False
     end).
Proof.
  intros Hex. cbn zeta. rewrite this_step by assumption.
  destruct p as [res0|e1], t as [res1|e2]; cbn.
  - left. eauto 10.
  - right. eauto.
  - right. eauto.
  - right. eauto.
Qed.

Lemma cold_start_all_or_nothing_witness :
  this (step (constructor cfg0 ex0 mk0)
          (InitSettled false (Resolved prices0) (Rejected http500) 1000%N))
  = this (constructor cfg0 ex0 mk0).
Proof.
  destruct (cold_start_all_or_nothing (constructor cfg0 ex0 mk0) false
              (Resolved prices0) (Rejected http500) 1000%N eq_refl)
    as [(r0 & r1 & _ & H & _)|[H _]].
  - discriminate H.
  - exact H.
Defined.

(** ** Period keys *)

(** X17. The keys bound to periods are exactly [1] to the number of
    periods; a bound key [ch] always finds its period at index [ch - 1],
    and any other digit does nothing. *)
Theorem period_keys a ch :
  (period_bound ch a = true <->
   1 <= ch <= length (Exchange.periods (exchange (this a)))) /\
  (period_bound ch a = true ->
   exists p, Exchange.periods (exchange (this a)) !! (ch - 1) = Some p /\
             currentPeriod (this (on_period ch a)) = Some p) /\
  (period_bound ch a = false -> step a (KeyPeriod ch) = a).
Proof.
  split; [apply period_bound_range|]. split.
  - intros Hb. destruct (period_bound_lookup ch a Hb) as (p & Hp & _).
    exists p. split; [exact Hp|].
    unfold on_period, andThen. rewrite this_updatePriceTrend. cbn. exact Hp.
  - intros Hb. unfold step. destruct (exited (world a)); [reflexivity|].
    cbn [handle_event]. rewrite Hb. reflexivity.
Qed.

Lemma period_keys_witness :
  step started (KeyPeriod 3) = started.
Proof.
  destruct (period_keys started 3) as (_ & _ & H). apply H. reflexivity.
Defined.
